(* ===================================================================== *)
(*  dsdemo: primary/backup key-value store with a view service            *)
(*                                                                        *)
(*  A shallow embedding of viewservice/server.go (the View Authority)     *)
(*  and of the kvserver package (the replica), followed by the            *)
(*  properties checked against them.                                      *)
(*                                                                        *)
(*  Conventions                                                           *)
(*   - uint64 fields are Z with the wrap-around of ++ written out;        *)
(*   - time.Time is a Z (nanoseconds), time.Now() is an argument of the   *)
(*     handler that reads the clock;                                      *)
(*   - a Go map is a gmap; a `range` loop over a map whose result         *)
(*     depends on the visiting order takes that order as an argument,     *)
(*     because Go leaves the iteration order of maps unspecified;         *)
(*   - the mutex, the listener, the dead flag and the log output are      *)
(*     not modelled: every handler below is one critical section, and     *)
(*     a handler that releases the lock around an RPC is split into the   *)
(*     critical sections it consists of.                                  *)
(* ===================================================================== *)

From Stdlib Require Import ZArith Lia Bool Sorted.
From stdpp Require Import gmap strings list fin_maps.

Open Scope string_scope.
Open Scope list_scope.
Open Scope Z_scope.

(* ===================================================================== *)
(** * Package viewservice                                                 *)
(* ===================================================================== *)

Module viewservice.

(** uint64 arithmetic: [ViewNumber++] wraps at 2^64. *)
Definition uint64_wrap (n : Z) : Z := n mod 2 ^ 64.

(** Go's [int] (64 bits, two's complement), used by [rpcCount]. *)
Definition int_wrap (n : Z) : Z := (n + 2 ^ 63) mod 2 ^ 64 - 2 ^ 63.

(** Durations in nanoseconds, as time.Duration has them. *)
Definition Millisecond : Z := 1000000.
Definition PingInterval : Z := 500 * Millisecond.
Definition DeadInterval : Z := 1500 * Millisecond.

Record View := mkView {
  ViewNumber : Z;
  Primary : string;
  Backup : string
}.

Record PingArgs := mkPingArgs {
  ServerName : string;
  PingViewNumber : Z
}.

Record ServerInfo := mkServerInfo {
  Name : string;
  LastPingTime : Z;
  Alive : bool
}.

Record ViewServer := mkViewServer {
  rpcCount : Z;
  currentView : View;
  servers : gmap string ServerInfo;
  idleServers : list string;
  primaryAcked : bool
}.

(** Field updates. *)
Definition set_view (vs : ViewServer) (v : View) : ViewServer :=
  mkViewServer (rpcCount vs) v (servers vs) (idleServers vs) (primaryAcked vs).
Definition set_servers (vs : ViewServer) (m : gmap string ServerInfo) : ViewServer :=
  mkViewServer (rpcCount vs) (currentView vs) m (idleServers vs) (primaryAcked vs).
Definition set_idle (vs : ViewServer) (l : list string) : ViewServer :=
  mkViewServer (rpcCount vs) (currentView vs) (servers vs) l (primaryAcked vs).
Definition set_acked (vs : ViewServer) (b : bool) : ViewServer :=
  mkViewServer (rpcCount vs) (currentView vs) (servers vs) (idleServers vs) b.
Definition incr_rpcCount (vs : ViewServer) : ViewServer :=
  mkViewServer (int_wrap (rpcCount vs + 1)) (currentView vs) (servers vs)
               (idleServers vs) (primaryAcked vs).

(** The state built by [StartServer]. *)
Definition StartServer : ViewServer :=
  mkViewServer 0 (mkView 0 "" "") ∅ [] true.

(** ** Ping *)

(** "Update server's last ping time": the record of a known server is
    refreshed, a new server is registered and appended to the idle list. *)
Definition recordPing (vs : ViewServer) (name : string) (now : Z) : ViewServer :=
  match servers vs !! name with
  | Some server =>
      set_servers vs
        (<[name := mkServerInfo (Name server) now true]> (servers vs))
  | None =>
      let vs' :=
        set_servers vs (<[name := mkServerInfo name now true]> (servers vs)) in
      if negb (String.eqb name (Primary (currentView vs)))
         && negb (String.eqb name (Backup (currentView vs)))
      then set_idle vs' (idleServers vs ++ [name])
      else vs'
  end.

Definition Ping (vs : ViewServer) (args : PingArgs) (now : Z)
  : ViewServer * View :=
  let vs := incr_rpcCount vs in
  let vs := recordPing vs (ServerName args) now in
  let vs :=
    if String.eqb (ServerName args) (Primary (currentView vs))
       && Z.eqb (PingViewNumber args) (ViewNumber (currentView vs))
    then set_acked vs true
    else vs in
  (vs, currentView vs).

(** ** GetView *)

Definition GetView (vs : ViewServer) : ViewServer * View :=
  let vs := incr_rpcCount vs in
  (vs, currentView vs).

(** ** checkFailuresAndPromote, block by block *)

(** "Mark dead servers".  Each record is updated on its own, so the
    visiting order of the loop does not matter. *)
Definition markOne (now : Z) (server : ServerInfo) : ServerInfo :=
  if Z.gtb (now - LastPingTime server) DeadInterval then
    if Alive server
    then mkServerInfo (Name server) (LastPingTime server) false
    else server
  else server.

Definition markDead (vs : ViewServer) (now : Z) : ViewServer :=
  set_servers vs (markOne now <$> servers vs).

(** [server, exists := vs.servers[name]; exists && !server.Alive] *)
Definition knownDead (vs : ViewServer) (name : string) : bool :=
  match servers vs !! name with
  | Some server => negb (Alive server)
  | None => false
  end.

(** [server, exists := vs.servers[name]; exists && server.Alive] *)
Definition knownAlive (vs : ViewServer) (name : string) : bool :=
  match servers vs !! name with
  | Some server => Alive server
  | None => false
  end.

(** "Check if primary is dead". *)
Definition checkPrimary (vs : ViewServer) : ViewServer :=
  let v := currentView vs in
  if negb (String.eqb (Primary v) "") then
    if knownDead vs (Primary v) then
      if primaryAcked vs && negb (String.eqb (Backup v) "") then
        if knownAlive vs (Backup v) then
          set_acked
            (set_view vs (mkView (uint64_wrap (ViewNumber v + 1)) (Backup v) ""))
            false
        else vs
      else if primaryAcked vs then
        set_acked
          (set_view vs (mkView (uint64_wrap (ViewNumber v + 1)) "" (Backup v)))
          true
      else vs
    else vs
  else vs.

(** "Check if backup is dead". *)
Definition checkBackup (vs : ViewServer) : ViewServer :=
  let v := currentView vs in
  if negb (String.eqb (Backup v) "") then
    if knownDead vs (Backup v) then
      set_view vs (mkView (uint64_wrap (ViewNumber v + 1)) (Primary v) "")
    else vs
  else vs.

(** [removeFromIdle] *)
Definition removeFromIdle (vs : ViewServer) (serverName : string) : ViewServer :=
  set_idle vs
    (List.filter (fun name => negb (String.eqb name serverName)) (idleServers vs)).

(** The first name, in the order the loop visits the map, whose record
    is alive and which differs from [excluded]: the name at which the
    loops of the last two blocks [break]. *)
Definition firstCandidate (vs : ViewServer) (order : list string)
    (excluded : string) : option string :=
  List.find
    (fun name => knownAlive vs name && negb (String.eqb name excluded))
    order.

(** "Assign new primary if none exists". *)
Definition assignPrimary (vs : ViewServer) (order : list string) : ViewServer :=
  let v := currentView vs in
  if String.eqb (Primary v) "" && primaryAcked vs then
    match firstCandidate vs order (Backup v) with
    | Some name =>
        removeFromIdle
          (set_acked
             (set_view vs (mkView (uint64_wrap (ViewNumber v + 1)) name (Backup v)))
             false)
          name
    | None => vs
    end
  else vs.

(** "Assign new backup if none exists and we have a primary". *)
Definition assignBackup (vs : ViewServer) (order : list string) : ViewServer :=
  let v := currentView vs in
  if String.eqb (Backup v) "" && negb (String.eqb (Primary v) "")
     && primaryAcked vs then
    match firstCandidate vs order (Primary v) with
    | Some name =>
        removeFromIdle
          (set_view vs (mkView (uint64_wrap (ViewNumber v + 1)) (Primary v) name))
          name
    | None => vs
    end
  else vs.

(** One run of the ticker body.  [now] is the clock reading, [ordP] and
    [ordB] are the orders in which the two assignment loops visit
    [vs.servers]. *)
Definition checkFailuresAndPromote (vs : ViewServer) (now : Z)
    (ordP ordB : list string) : ViewServer :=
  let vs := markDead vs now in
  let vs := checkPrimary vs in
  let vs := checkBackup vs in
  let vs := assignPrimary vs ordP in
  assignBackup vs ordB.

(** ** Executions *)

Inductive Op :=
| OpPing (args : PingArgs) (now : Z)
| OpGetView
| OpTick (now : Z) (ordP ordB : list string).

(** One operation under the lock; the reply, if the operation is an RPC. *)
Definition step (vs : ViewServer) (op : Op) : ViewServer * option View :=
  match op with
  | OpPing args now => let '(vs', v) := Ping vs args now in (vs', Some v)
  | OpGetView => let '(vs', v) := GetView vs in (vs', Some v)
  | OpTick now ordP ordB => (checkFailuresAndPromote vs now ordP ordB, None)
  end.

(** A run from [vs]: the final state and the views sent in replies, in order. *)
Fixpoint run (vs : ViewServer) (ops : list Op) : ViewServer * list View :=
  match ops with
  | [] => (vs, [])
  | op :: ops' =>
      let '(vs1, r) := step vs op in
      let '(vs2, rs) := run vs1 ops' in
      (vs2, match r with Some v => v :: rs | None => rs end)
  end.

(** The current view number. *)
Abbreviation vnum vs := (ViewNumber (currentView vs)).

Definition final (vs : ViewServer) (ops : list Op) : ViewServer := fst (run vs ops).
Definition published (vs : ViewServer) (ops : list Op) : list View := snd (run vs ops).

(** The acknowledgements received in a run: the pings that passed the
    test of [Ping] ("primary has acked the current view"), as pairs of
    the sender and the view number it advertised. *)
Definition isAck (vs : ViewServer) (op : Op) : option (string * Z) :=
  match op with
  | OpPing args _ =>
      if String.eqb (ServerName args) (Primary (currentView vs))
         && Z.eqb (PingViewNumber args) (ViewNumber (currentView vs))
      then Some (ServerName args, PingViewNumber args)
      else None
  | _ => None
  end.

Fixpoint acks (vs : ViewServer) (ops : list Op) : list (string * Z) :=
  match ops with
  | [] => []
  | op :: ops' =>
      let rest := acks (fst (step vs op)) ops' in
      match isAck vs op with Some a => a :: rest | None => rest end
  end.

(** [advertised name n ops]: some ping of the run came from [name] and
    carried the view number [n]. *)
Definition advertised (name : string) (n : Z) (ops : list Op) : bool :=
  existsb
    (fun op =>
       match op with
       | OpPing args _ =>
           String.eqb (ServerName args) name && Z.eqb (PingViewNumber args) n
       | _ => false
       end)
    ops.

(** What an acknowledged view guarantees: the flag is only set while
    the view has no primary or after a ping of the primary that passed
    the test of [Ping]. *)
Definition ackJustified (hist : list (string * Z)) (vs : ViewServer) : Prop :=
  primaryAcked vs = true ->
  Primary (currentView vs) = ""
  \/ exists n, (Primary (currentView vs), n) ∈ hist.

(** A visiting order of the servers map: every key once. *)
Definition map_order (m : gmap string ServerInfo) (order : list string) : Prop :=
  order ≡ₚ (map_to_list m).*1.

(** The number of ticks in a run. *)
Definition ticks (ops : list Op) : nat :=
  length (List.filter (fun op => match op with OpTick _ _ _ => true | _ => false end) ops).

(** ** Shape of the service state *)

(** A view never names one replica twice. *)
Definition distinctRoles (vs : ViewServer) : Prop :=
  Primary (currentView vs) <> "" ->
  Primary (currentView vs) <> Backup (currentView vs).

(** The replicas named by the view have a record. *)
Definition registeredView (vs : ViewServer) : Prop :=
  (Primary (currentView vs) <> "" -> is_Some (servers vs !! Primary (currentView vs)))
  /\ (Backup (currentView vs) <> "" -> is_Some (servers vs !! Backup (currentView vs))).

(** The idle list: registered names, each once, none of them named by
    the view. *)
Definition idleOK (vs : ViewServer) : Prop :=
  NoDup (idleServers vs)
  /\ forall name, name ∈ idleServers vs ->
       is_Some (servers vs !! name)
       /\ (Primary (currentView vs) <> "" -> name <> Primary (currentView vs))
       /\ (Backup (currentView vs) <> "" -> name <> Backup (currentView vs)).

Definition wellFormed (vs : ViewServer) : Prop :=
  distinctRoles vs /\ registeredView vs /\ idleOK vs.

(** [pingsFrom name ops]: some ping of the run came from [name]. *)
Definition pingsFrom (name : string) (ops : list Op) : bool :=
  existsb
    (fun op =>
       match op with
       | OpPing args _ => String.eqb (ServerName args) name
       | _ => false
       end)
    ops.

(** The number of RPCs in a run, and [GetRPCCount]. *)
Definition rpcs (ops : list Op) : nat :=
  length (List.filter (fun op => match op with OpTick _ _ _ => false | _ => true end) ops).

Definition GetRPCCount (vs : ViewServer) : Z := rpcCount vs.

End viewservice.

(* ===================================================================== *)
(** * Package kvserver                                                    *)
(* ===================================================================== *)

Module kvserver.

(** Error constants. *)
Definition OK : string := "".
Definition ErrNoKey : string := "ErrNoKey".
Definition ErrNotPrimary : string := "ErrNotPrimary".

Record GetArgs := mkGetArgs { GetArgs_Key : string }.
Record GetReply := mkGetReply { GetReply_Value : string; GetReply_Err : string }.
Record PutArgs := mkPutArgs { Key : string; Value : string }.
Record PutReply := mkPutReply { PutReply_Err : string }.
Record ForwardUpdateArgs := mkForwardUpdateArgs {
  ForwardUpdateArgs_Key : string;
  ForwardUpdateArgs_Value : string
}.
Record ForwardUpdateReply := mkForwardUpdateReply { ForwardUpdateReply_Err : string }.
Record SyncStateArgs := mkSyncStateArgs {
  Data : gmap string string;
  SyncStateArgs_ViewNumber : Z
}.
Record SyncStateReply := mkSyncStateReply { SyncStateReply_Err : string }.

(** [vsClient] is kept as a flag: whether the connection to the view
    service has been established. *)
Record KVServer := mkKVServer {
  me : string;
  vsAddress : string;
  vsClient : bool;
  currentView : viewservice.View;
  data : gmap string string;
  role : string;
  lastBackup : string;
  syncing : bool;
  pendingQueue : list PutArgs
}.

Definition set_currentView (kv : KVServer) (v : viewservice.View) : KVServer :=
  mkKVServer (me kv) (vsAddress kv) (vsClient kv) v (data kv) (role kv)
             (lastBackup kv) (syncing kv) (pendingQueue kv).
Definition set_data (kv : KVServer) (d : gmap string string) : KVServer :=
  mkKVServer (me kv) (vsAddress kv) (vsClient kv) (currentView kv) d (role kv)
             (lastBackup kv) (syncing kv) (pendingQueue kv).
Definition set_role (kv : KVServer) (r : string) : KVServer :=
  mkKVServer (me kv) (vsAddress kv) (vsClient kv) (currentView kv) (data kv) r
             (lastBackup kv) (syncing kv) (pendingQueue kv).
Definition set_lastBackup (kv : KVServer) (b : string) : KVServer :=
  mkKVServer (me kv) (vsAddress kv) (vsClient kv) (currentView kv) (data kv)
             (role kv) b (syncing kv) (pendingQueue kv).
Definition set_syncing (kv : KVServer) (b : bool) : KVServer :=
  mkKVServer (me kv) (vsAddress kv) (vsClient kv) (currentView kv) (data kv)
             (role kv) (lastBackup kv) b (pendingQueue kv).
Definition set_pendingQueue (kv : KVServer) (q : list PutArgs) : KVServer :=
  mkKVServer (me kv) (vsAddress kv) (vsClient kv) (currentView kv) (data kv)
             (role kv) (lastBackup kv) (syncing kv) q.

(** The state built by [StartServer]. *)
Definition StartServer (serverName vsAddress : string) : KVServer :=
  mkKVServer serverName vsAddress false (viewservice.mkView 0 "" "") ∅
             "idle" "" false [].

(** [c := make(map[string]string); for k, v := range m { c[k] = v }] *)
Definition copyMap (m : gmap string string) : gmap string string :=
  map_fold (fun k v acc => <[k := v]> acc) ∅ m.

(** What an outbound RPC can do: the connection fails, the call fails,
    or the call returns (with the [Err] of the callee's reply). *)
Inductive RpcResult :=
| DialError
| CallError
| CallReturned (err : string).

(** Outbound network actions of a replica. *)
Inductive Event :=
| EvDial (addr : string)
| EvSyncState (addr : string) (args : SyncStateArgs)
| EvForwardUpdate (addr : string) (args : ForwardUpdateArgs).

(** ** Get *)

Definition Get (kv : KVServer) (args : GetArgs) : KVServer * GetReply :=
  if negb (String.eqb (role kv) "primary") then
    (kv, mkGetReply "" ErrNotPrimary)
  else
    match data kv !! GetArgs_Key args with
    | Some value => (kv, mkGetReply value OK)
    | None => (kv, mkGetReply "" ErrNoKey)
    end.

(** ** Put

    [Put] holds the lock twice: once to check the role and the syncing
    flag and to read the backup, once to write the store.  The call to
    the backup sits between the two. *)

Inductive PutEntry :=
| PutDone (kv : KVServer) (reply : PutReply)
| PutForward (backup : string).

(** First critical section. *)
Definition Put_enter (kv : KVServer) (args : PutArgs) : PutEntry :=
  if negb (String.eqb (role kv) "primary") then
    PutDone kv (mkPutReply ErrNotPrimary)
  else if syncing kv then
    PutDone (set_pendingQueue kv (pendingQueue kv ++ [args])) (mkPutReply OK)
  else
    PutForward (viewservice.Backup (currentView kv)).

(** Between the critical sections: "If there's a backup, forward the
    update".  Neither an error nor the reply is looked at. *)
Definition Put_forward (backup : string) (args : PutArgs) (net : RpcResult)
  : list Event :=
  if negb (String.eqb backup "") then
    match net with
    | DialError => [EvDial backup]
    | _ =>
        [EvDial backup;
         EvForwardUpdate backup (mkForwardUpdateArgs (Key args) (Value args))]
    end
  else [].

(** Second critical section: "Update local state". *)
Definition Put_apply (kv : KVServer) (args : PutArgs) : KVServer * PutReply :=
  (set_data kv (<[Key args := Value args]> (data kv)), mkPutReply OK).

(** [Put] with nothing else running in between. *)
Definition Put (kv : KVServer) (args : PutArgs) (net : RpcResult)
  : KVServer * PutReply * list Event :=
  match Put_enter kv args with
  | PutDone kv' reply => (kv', reply, [])
  | PutForward backup =>
      let '(kv', reply) := Put_apply kv args in
      (kv', reply, Put_forward backup args net)
  end.

(** ** ForwardUpdate *)

Definition ForwardUpdate (kv : KVServer) (args : ForwardUpdateArgs)
  : KVServer * ForwardUpdateReply :=
  if negb (String.eqb (role kv) "backup") then
    (kv, mkForwardUpdateReply ErrNotPrimary)
  else
    (set_data kv
       (<[ForwardUpdateArgs_Key args := ForwardUpdateArgs_Value args]> (data kv)),
     mkForwardUpdateReply OK).

(** ** SyncState *)

Definition SyncState (kv : KVServer) (args : SyncStateArgs)
  : KVServer * SyncStateReply :=
  (set_data kv (copyMap (Data args)), mkSyncStateReply OK).

(** ** handleViewChange

    The second component is the goroutine the handler starts, if any:
    the arguments of [transferState]. *)
Definition handleViewChange (kv : KVServer) (oldView : viewservice.View)
  : KVServer * option (string * Z) :=
  let v := currentView kv in
  let kv :=
    if String.eqb (viewservice.Primary v) (me kv) then set_role kv "primary"
    else if String.eqb (viewservice.Backup v) (me kv) then set_role kv "backup"
    else set_role kv "idle" in
  if String.eqb (role kv) "primary" then
    if negb (String.eqb (viewservice.Backup v) "")
       && negb (String.eqb (viewservice.Backup v) (lastBackup kv))
    then (set_lastBackup kv (viewservice.Backup v),
          Some (viewservice.Backup v, viewservice.ViewNumber v))
    else if String.eqb (viewservice.Backup v) ""
    then (set_lastBackup kv "", None)
    else (kv, None)
  else (kv, None).

(** ** ping *)

(** First critical section: the arguments of the Ping RPC, unless the
    view service is not connected yet. *)
Definition ping_args (kv : KVServer) : option viewservice.PingArgs :=
  if vsClient kv
  then Some (viewservice.mkPingArgs (me kv) (viewservice.ViewNumber (currentView kv)))
  else None.

(** Second critical section, run when the RPC returned [reply]. *)
Definition ping_reply (kv : KVServer) (reply : viewservice.View)
  : KVServer * option (string * Z) :=
  let oldView := currentView kv in
  let kv := set_currentView kv reply in
  if negb (Z.eqb (viewservice.ViewNumber oldView)
                 (viewservice.ViewNumber (currentView kv)))
  then handleViewChange kv oldView
  else (kv, None).

(** ** transferState, critical section by critical section *)

(** "kv.syncing = true" and the copy of the store. *)
Definition transferState_begin (kv : KVServer) : KVServer * gmap string string :=
  (set_syncing kv true, copyMap (data kv)).

(** The two error exits: "Failed to connect to backup" and "SyncState
    RPC failed". *)
Definition transferState_dialFailed (kv : KVServer) : KVServer :=
  set_syncing kv false.

Definition transferState_callFailed (kv : KVServer) : KVServer :=
  set_syncing kv false.

(** The last critical section: the flag is cleared and the queue is
    taken out; the result carries the writes to replay. *)
Definition transferState_done (kv : KVServer) : KVServer * list PutArgs :=
  let kv := set_syncing kv false in
  if (0 <? length (pendingQueue kv))%nat
  then (set_pendingQueue kv [], pendingQueue kv)
  else (kv, []).

(** "Process pending puts": [kv.Put] on every queued write, in order.
    [fwd i] is what the network does to the [i]-th forwarded update. *)
Fixpoint replay (kv : KVServer) (pending : list PutArgs) (fwd : nat -> RpcResult)
  : KVServer * list Event :=
  match pending with
  | [] => (kv, [])
  | putArgs :: rest =>
      let '(kv1, _, evs1) := Put kv putArgs (fwd O) in
      let '(kv2, evs2) := replay kv1 rest (fun i => fwd (S i)) in
      (kv2, evs1 ++ evs2)
  end.

(** What is sent to the backup by the transfer itself. *)
Definition transferState_send (backup : string) (viewNumber : Z)
    (dataCopy : gmap string string) (net : RpcResult) : list Event :=
  match net with
  | DialError => [EvDial backup]
  | _ => [EvDial backup; EvSyncState backup (mkSyncStateArgs dataCopy viewNumber)]
  end.

(** [transferState] with nothing else running in between. *)
Definition transferState (kv : KVServer) (backup : string) (viewNumber : Z)
    (net : RpcResult) (fwd : nat -> RpcResult) : KVServer * list Event :=
  let '(kv, dataCopy) := transferState_begin kv in
  let sent := transferState_send backup viewNumber dataCopy net in
  match net with
  | DialError => (transferState_dialFailed kv, sent)
  | CallError => (transferState_callFailed kv, sent)
  | CallReturned _ =>
      let '(kv, pending) := transferState_done kv in
      let '(kv, evs) := replay kv pending fwd in
      (kv, sent ++ evs)
  end.

(** The store after the writes of [pending] have been applied in order. *)
Definition applyAll (d : gmap string string) (pending : list PutArgs)
  : gmap string string :=
  fold_left (fun acc a => <[Key a := Value a]> acc) pending d.

(** ** A primary and its backup

    The handlers of the backup run while the primary waits for the
    call to return.  [deliver] runs at replica [b] the handler of a call
    that was addressed to [b] and went through. *)
Definition deliver (b : KVServer) (ev : Event) : KVServer :=
  match ev with
  | EvDial _ => b
  | EvSyncState addr args =>
      if String.eqb addr (me b) then fst (SyncState b args) else b
  | EvForwardUpdate addr args =>
      if String.eqb addr (me b) then fst (ForwardUpdate b args) else b
  end.

Definition deliverAll (b : KVServer) (evs : list Event) : KVServer :=
  fold_left deliver evs b.

(** Every call of the oracle goes through. *)
Definition allReturned (fwd : nat -> RpcResult) : Prop :=
  forall i, exists err, fwd i = CallReturned err.

(** What a view says about the replica named [name]. *)
Definition roleFor (name : string) (v : viewservice.View) : string :=
  if String.eqb (viewservice.Primary v) name then "primary"
  else if String.eqb (viewservice.Backup v) name then "backup"
  else "idle".

(** The forwarding of the writes of a queue, one after the other, to
    [backup] when every call goes through. *)
Definition forwardedWrites (backup : string) (pending : list PutArgs) : list Event :=
  flat_map
    (fun a => [EvDial backup;
               EvForwardUpdate backup (mkForwardUpdateArgs (Key a) (Value a))])
    pending.

End kvserver.

(* ===================================================================== *)
(** * Package client                                                      *)
(* ===================================================================== *)

Module client.

(** A connection made by [rpc.Dial]: where it leads and whether [Close]
    has been called on it.  A call on a closed connection fails. *)
Record Conn := mkConn { connAddr : string; connClosed : bool }.

Record Client := mkClient {
  vsAddress : string;
  currentPrimary : string;
  primaryClient : option Conn
}.

(** The state built by [MakeClient] once the view service is reached. *)
Definition MakeClient (vsAddress : string) : Client :=
  mkClient vsAddress "" None.

(** What the outside world does in one turn of a retry loop: the answer
    to GetView ([None]: the call fails), whether the primary can be
    dialled, and the answer of the primary to the call of the loop
    ([None]: the call fails). *)
Record Round (Reply : Type) := mkRound {
  rGetView : option viewservice.View;
  rDial : bool;
  rCall : option Reply
}.
Arguments mkRound {Reply}.
Arguments rGetView {Reply}.
Arguments rDial {Reply}.
Arguments rCall {Reply}.

(** [updatePrimary] *)
Definition updatePrimary (ck : Client) (getView : option viewservice.View)
    (dialOk : bool) : Client :=
  match getView with
  | None => ck
  | Some v =>
      if negb (String.eqb (viewservice.Primary v) "")
         && negb (String.eqb (viewservice.Primary v) (currentPrimary ck))
      then
        let closed :=
          match primaryClient ck with
          | Some c => Some (mkConn (connAddr c) true)
          | None => None
          end in
        if dialOk
        then mkClient (vsAddress ck) (viewservice.Primary v)
                      (Some (mkConn (viewservice.Primary v) false))
        else mkClient (vsAddress ck) "" closed
      else ck
  end.

(** [call]: [rpc.ErrShutdown] without a connection or on a closed one,
    otherwise whatever the primary does. *)
Definition call {Reply} (ck : Client) (answer : option Reply) : option Reply :=
  match primaryClient ck with
  | None => None
  | Some c => if connClosed c then None else answer
  end.

(** "Primary changed or failed, update and retry". *)
Definition forgetPrimary (ck : Client) : Client :=
  mkClient (vsAddress ck) "" None.

(** The first lines of both loops: "Get current primary". *)
Definition refresh {Reply} (ck : Client) (r : Round Reply) : Client :=
  if String.eqb (currentPrimary ck) ""
  then updatePrimary ck (rGetView r) (rDial r)
  else ck.

(** [Get]: the loop runs for as many turns as [env] describes; [None]
    when it has not returned by then. *)
Fixpoint Get (ck : Client) (key : string) (env : list (Round kvserver.GetReply))
  : option string * Client :=
  match env with
  | [] => (None, ck)
  | r :: env' =>
      let ck := refresh ck r in
      if String.eqb (currentPrimary ck) "" then Get ck key env'
      else
        match call ck (rCall r) with
        | Some reply =>
            if String.eqb (kvserver.GetReply_Err reply) kvserver.OK
            then (Some (kvserver.GetReply_Value reply), ck)
            else if String.eqb (kvserver.GetReply_Err reply) kvserver.ErrNoKey
            then (Some "", ck)
            else if String.eqb (kvserver.GetReply_Err reply) kvserver.ErrNotPrimary
            then Get (forgetPrimary ck) key env'
            else Get ck key env'
        | None => Get (forgetPrimary ck) key env'
        end
  end.

(** [Put]: [true] when the loop has returned. *)
Fixpoint Put (ck : Client) (key value : string)
    (env : list (Round kvserver.PutReply)) : bool * Client :=
  match env with
  | [] => (false, ck)
  | r :: env' =>
      let ck := refresh ck r in
      if String.eqb (currentPrimary ck) "" then Put ck key value env'
      else
        match call ck (rCall r) with
        | Some reply =>
            if String.eqb (kvserver.PutReply_Err reply) kvserver.OK
            then (true, ck)
            else if String.eqb (kvserver.PutReply_Err reply) kvserver.ErrNotPrimary
            then Put (forgetPrimary ck) key value env'
            else Put ck key value env'
        | None => Put (forgetPrimary ck) key value env'
        end
  end.

(** The cached primary and the connection go together. *)
Definition connected (ck : Client) : Prop :=
  currentPrimary ck <> "" ->
  primaryClient ck = Some (mkConn (currentPrimary ck) false).

End client.

(* ===================================================================== *)
(** * Scenarios                                                           *)
(* ===================================================================== *)

Module Scenarios.
Import viewservice.

Definition ms : Z := Millisecond.

(** Replica A becomes primary in view 1 and acknowledges it.  B joins
    and is made backup in view 2.  A stops pinging after its
    acknowledgement of view 1 and never advertises view 2.  B keeps
    pinging; the tick at 3000 ms finds A dead. *)
Definition staleAckPrefix : list Op :=
  [ OpPing (mkPingArgs "A" 0) 0;
    OpTick (500 * ms) ["A"] ["A"];
    OpPing (mkPingArgs "A" 0) (500 * ms);
    OpTick (1000 * ms) ["A"] ["A"];
    OpPing (mkPingArgs "A" 1) (1000 * ms);
    OpPing (mkPingArgs "B" 0) (1100 * ms);
    OpTick (1500 * ms) ["A"; "B"] ["A"; "B"];
    OpPing (mkPingArgs "B" 0) (1600 * ms);
    OpTick (2000 * ms) ["A"; "B"] ["A"; "B"];
    OpPing (mkPingArgs "B" 2) (2100 * ms);
    OpTick (2500 * ms) ["A"; "B"] ["A"; "B"];
    OpPing (mkPingArgs "B" 2) (2600 * ms) ].

Definition staleAckTick : Op := OpTick (3000 * ms) ["A"; "B"] ["A"; "B"].

(** The same start, but B registers only shortly before the tick that
    finds A dead; a GetView follows every operation. *)
Definition skipRun : list Op :=
  [ OpPing (mkPingArgs "A" 0) 0; OpGetView;
    OpTick (500 * ms) ["A"] ["A"]; OpGetView;
    OpPing (mkPingArgs "A" 0) (500 * ms); OpGetView;
    OpTick (1000 * ms) ["A"] ["A"]; OpGetView;
    OpPing (mkPingArgs "A" 1) (1000 * ms); OpGetView;
    OpTick (1500 * ms) ["A"] ["A"]; OpGetView;
    OpTick (2000 * ms) ["A"] ["A"]; OpGetView;
    OpTick (2500 * ms) ["A"] ["A"]; OpGetView;
    OpPing (mkPingArgs "B" 0) (2900 * ms); OpGetView;
    OpTick (3000 * ms) ["A"; "B"] ["A"; "B"]; OpGetView ].

(** View (2, A, B), acknowledged by A; then both replicas fall silent. *)
Definition bothDeadPrefix : list Op :=
  [ OpPing (mkPingArgs "A" 0) 0;
    OpTick (500 * ms) ["A"] ["A"];
    OpPing (mkPingArgs "A" 1) (600 * ms);
    OpPing (mkPingArgs "B" 0) (700 * ms);
    OpTick (1000 * ms) ["A"; "B"] ["A"; "B"];
    OpPing (mkPingArgs "A" 2) (1100 * ms);
    OpPing (mkPingArgs "B" 2) (1200 * ms) ].

(** A and B registered in this order, nobody is primary yet. *)
Definition twoRegistered : ViewServer :=
  final StartServer
    [ OpPing (mkPingArgs "A" 0) 0; OpPing (mkPingArgs "B" 0) (100 * ms) ].

End Scenarios.

(* ===================================================================== *)
(** * Properties of the view service                                      *)
(* ===================================================================== *)

Module ViewServiceProofs.
Import viewservice.

(** ** Arithmetic of the view number *)

Lemma uint64_wrap_twice n :
  uint64_wrap (uint64_wrap (n + 1) + 1) = uint64_wrap (n + 2).
Proof.
  unfold uint64_wrap. rewrite Zplus_mod_idemp_l. f_equal. lia.
Qed.

Lemma uint64_wrap_small n : 0 <= n < 2 ^ 64 -> uint64_wrap n = n.
Proof. intros H. unfold uint64_wrap. now apply Z.mod_small. Qed.

(** ** String tests *)

Lemma eqb_empty_false (s : string) : s <> "" -> String.eqb s "" = false.
Proof. intros H. now apply String.eqb_neq. Qed.

(** ** The RPC handlers do not touch the view *)

Lemma recordPing_view vs name now :
  currentView (recordPing vs name now) = currentView vs
  /\ primaryAcked (recordPing vs name now) = primaryAcked vs.
Proof.
  unfold recordPing.
  destruct (servers vs !! name); simpl; [auto|].
  destruct (negb _ && negb _); simpl; auto.
Qed.

Lemma Ping_view vs args now :
  currentView (fst (Ping vs args now)) = currentView vs
  /\ snd (Ping vs args now) = currentView vs.
Proof.
  unfold Ping. simpl.
  destruct (recordPing_view (incr_rpcCount vs) (ServerName args) now) as [Hv _].
  destruct (_ && _); simpl; now rewrite Hv.
Qed.

Lemma GetView_view vs :
  currentView (fst (GetView vs)) = currentView vs
  /\ snd (GetView vs) = currentView vs.
Proof. split; reflexivity. Qed.

(** The flag after a ping: set by an acknowledgement, kept otherwise. *)
Lemma Ping_acked vs args now :
  primaryAcked (fst (Ping vs args now)) =
    match isAck vs (OpPing args now) with
    | Some _ => true
    | None => primaryAcked vs
    end.
Proof.
  unfold Ping, isAck. simpl.
  destruct (recordPing_view (incr_rpcCount vs) (ServerName args) now) as [Hv Ha].
  rewrite Hv. simpl.
  destruct (_ && _); simpl; [reflexivity|]. now rewrite Ha.
Qed.

(** ** The blocks of the tick, case by case *)

Lemma checkPrimary_cases vs :
  let v := currentView vs in
  checkPrimary vs = vs
  \/ (primaryAcked vs = true /\ Primary v <> "" /\ Backup v <> ""
      /\ knownDead vs (Primary v) = true /\ knownAlive vs (Backup v) = true
      /\ checkPrimary vs =
           set_acked
             (set_view vs (mkView (uint64_wrap (ViewNumber v + 1)) (Backup v) ""))
             false)
  \/ (primaryAcked vs = true /\ Primary v <> "" /\ Backup v = ""
      /\ knownDead vs (Primary v) = true
      /\ checkPrimary vs =
           set_acked (set_view vs (mkView (uint64_wrap (ViewNumber v + 1)) "" ""))
             true).
Proof.
  intros v. unfold checkPrimary. fold v.
  destruct (String.eqb (Primary v) "") eqn:Ep; simpl; [now left|].
  apply String.eqb_neq in Ep.
  destruct (knownDead vs (Primary v)) eqn:Ed; [|now left].
  destruct (primaryAcked vs) eqn:Ea; simpl; [|now left].
  destruct (String.eqb (Backup v) "") eqn:Eb; simpl.
  - apply String.eqb_eq in Eb. right. right. rewrite Eb. auto.
  - apply String.eqb_neq in Eb.
    destruct (knownAlive vs (Backup v)) eqn:El; [|now left].
    right. left. auto 10.
Qed.

Lemma checkBackup_cases vs :
  let v := currentView vs in
  checkBackup vs = vs
  \/ (Backup v <> "" /\ knownDead vs (Backup v) = true
      /\ checkBackup vs =
           set_view vs (mkView (uint64_wrap (ViewNumber v + 1)) (Primary v) "")).
Proof.
  intros v. unfold checkBackup. fold v.
  destruct (String.eqb (Backup v) "") eqn:Eb; simpl; [now left|].
  apply String.eqb_neq in Eb.
  destruct (knownDead vs (Backup v)) eqn:Ed; [|now left].
  right. auto.
Qed.

Lemma assignPrimary_cases vs order :
  let v := currentView vs in
  assignPrimary vs order = vs
  \/ (Primary v = "" /\ primaryAcked vs = true
      /\ exists name,
           firstCandidate vs order (Backup v) = Some name
           /\ assignPrimary vs order =
                removeFromIdle
                  (set_acked
                     (set_view vs
                        (mkView (uint64_wrap (ViewNumber v + 1)) name (Backup v)))
                     false)
                  name).
Proof.
  intros v. unfold assignPrimary. fold v.
  destruct (String.eqb (Primary v) "") eqn:Ep; simpl; [|now left].
  apply String.eqb_eq in Ep.
  destruct (primaryAcked vs) eqn:Ea; [|now left].
  destruct (firstCandidate vs order (Backup v)) as [name|] eqn:Ef; [|now left].
  right. eauto 10.
Qed.

Lemma assignBackup_cases vs order :
  let v := currentView vs in
  assignBackup vs order = vs
  \/ (Backup v = "" /\ Primary v <> "" /\ primaryAcked vs = true
      /\ exists name,
           firstCandidate vs order (Primary v) = Some name
           /\ assignBackup vs order =
                removeFromIdle
                  (set_view vs
                     (mkView (uint64_wrap (ViewNumber v + 1)) (Primary v) name))
                  name).
Proof.
  intros v. unfold assignBackup. fold v.
  destruct (String.eqb (Backup v) "") eqn:Eb; simpl; [|now left].
  apply String.eqb_eq in Eb.
  destruct (String.eqb (Primary v) "") eqn:Ep; simpl; [now left|].
  apply String.eqb_neq in Ep.
  destruct (primaryAcked vs) eqn:Ea; [|now left].
  destruct (firstCandidate vs order (Primary v)) as [name|] eqn:Ef; [|now left].
  right. eauto 10.
Qed.

(** Blocks that cannot fire. *)
Lemma checkBackup_no_backup vs :
  Backup (currentView vs) = "" -> checkBackup vs = vs.
Proof. intros H. unfold checkBackup. now rewrite H. Qed.

Lemma assignPrimary_unacked vs order :
  primaryAcked vs = false -> assignPrimary vs order = vs.
Proof.
  intros H. unfold assignPrimary. rewrite H. now rewrite andb_false_r.
Qed.

Lemma assignBackup_unacked vs order :
  primaryAcked vs = false -> assignBackup vs order = vs.
Proof.
  intros H. unfold assignBackup. rewrite H. now rewrite andb_false_r.
Qed.


(** ** How far one tick moves the view number *)

(** The two failure blocks together change the view at most once. *)
Lemma check_view_number vs :
  let vs' := checkBackup (checkPrimary vs) in
  vnum vs' = vnum vs \/ vnum vs' = uint64_wrap (vnum vs + 1).
Proof.
  intros vs'. subst vs'.
  destruct (checkPrimary_cases vs) as [E|[(_&_&_&_&_&E)|(_&_&_&_&E)]]; rewrite E.
  - destruct (checkBackup_cases vs) as [E'|(_&_&E')]; rewrite E'; simpl; auto.
  - rewrite checkBackup_no_backup by reflexivity. simpl. auto.
  - rewrite checkBackup_no_backup by reflexivity. simpl. auto.
Qed.

(** So do the two assignment blocks: a new primary is unacknowledged,
    which closes the block that assigns a backup. *)
Lemma assign_view_number vs ordP ordB :
  let vs' := assignBackup (assignPrimary vs ordP) ordB in
  vnum vs' = vnum vs \/ vnum vs' = uint64_wrap (vnum vs + 1).
Proof.
  intros vs'. subst vs'.
  destruct (assignPrimary_cases vs ordP) as [E|(_&_&name&_&E)]; rewrite E.
  - destruct (assignBackup_cases vs ordB) as [E'|(_&_&_&name&_&E')];
      rewrite E'; simpl; auto.
  - rewrite assignBackup_unacked by reflexivity. simpl. auto.
Qed.

Lemma tick_view_number vs now ordP ordB :
  let vs' := checkFailuresAndPromote vs now ordP ordB in
  vnum vs' = vnum vs
  \/ vnum vs' = uint64_wrap (vnum vs + 1)
  \/ vnum vs' = uint64_wrap (vnum vs + 2).
Proof.
  intros vs'. subst vs'. unfold checkFailuresAndPromote.
  set (vs1 := markDead vs now).
  assert (H1 : vnum vs1 = vnum vs) by reflexivity.
  pose proof (check_view_number vs1) as H2. simpl in H2.
  pose proof (assign_view_number (checkBackup (checkPrimary vs1)) ordP ordB) as H3.
  simpl in H3. rewrite <- H1.
  destruct H3 as [H3|H3]; rewrite H3; destruct H2 as [H2|H2]; rewrite H2; auto.
  rewrite uint64_wrap_twice. auto.
Qed.

Lemma ticks_cons op ops : ticks (op :: ops) = (ticks [op] + ticks ops)%nat.
Proof. unfold ticks. simpl. destruct op; reflexivity. Qed.

(** One operation: an RPC replies with the current view and leaves it
    alone; a tick moves the number up by at most two, as long as the
    counter does not wrap around. *)
Lemma step_view_number vs op :
  0 <= vnum vs -> vnum vs + 2 * Z.of_nat (ticks [op]) < 2 ^ 64 ->
  vnum vs <= vnum (fst (step vs op)) <= vnum vs + 2 * Z.of_nat (ticks [op])
  /\ match snd (step vs op) with
     | Some v => v = currentView vs /\ currentView (fst (step vs op)) = currentView vs
     | None => True
     end.
Proof.
  intros H0 H2. destruct op as [args now| |now ordP ordB]; unfold step.
  - destruct (Ping_view vs args now) as [Hv Hr].
    destruct (Ping vs args now) as [vs' v]. cbn [fst snd] in *.
    rewrite Hv. change (Z.of_nat (ticks [OpPing args now])) with 0.
    split; [lia|]. split; congruence.
  - cbn [fst snd GetView incr_rpcCount currentView].
    change (Z.of_nat (ticks [OpGetView])) with 0. split; [lia|]. split; reflexivity.
  - cbn [fst snd]. change (Z.of_nat (ticks [OpTick now ordP ordB])) with 1 in *.
    split; [|exact I].
    destruct (tick_view_number vs now ordP ordB) as [E|[E|E]]; simpl in E;
      rewrite E; try rewrite uint64_wrap_small; lia.
Qed.

(** ** The acknowledgement gate *)

(** Without an acknowledgement a tick never moves the primary. *)
Lemma tick_unacked_keeps_primary vs now ordP ordB :
  primaryAcked vs = false ->
  let vs' := checkFailuresAndPromote vs now ordP ordB in
  Primary (currentView vs') = Primary (currentView vs)
  /\ primaryAcked vs' = false.
Proof.
  intros Ha vs'. subst vs'. unfold checkFailuresAndPromote.
  set (vs1 := markDead vs now).
  assert (Ha1 : primaryAcked vs1 = false) by exact Ha.
  change (Primary (currentView vs)) with (Primary (currentView vs1)).
  destruct (checkPrimary_cases vs1) as [E|[(C&_)|(C&_)]]; try congruence.
  rewrite E.
  assert (Hb : Primary (currentView (checkBackup vs1)) = Primary (currentView vs1)
               /\ primaryAcked (checkBackup vs1) = false).
  { destruct (checkBackup_cases vs1) as [E'|(_&_&E')]; rewrite E'; simpl; auto. }
  destruct Hb as [Hp Hf].
  rewrite (assignPrimary_unacked _ ordP Hf), (assignBackup_unacked _ ordB Hf).
  auto.
Qed.

Lemma ackJustified_same hist vs vs' :
  Primary (currentView vs') = Primary (currentView vs) ->
  primaryAcked vs' = primaryAcked vs ->
  ackJustified hist vs -> ackJustified hist vs'.
Proof. unfold ackJustified. intros -> ->. auto. Qed.

Lemma ackJustified_unacked hist vs :
  primaryAcked vs = false -> ackJustified hist vs.
Proof. unfold ackJustified. congruence. Qed.

(** Every block of the tick keeps the flag justified. *)
Lemma tick_ackJustified hist vs now ordP ordB :
  ackJustified hist vs ->
  ackJustified hist (checkFailuresAndPromote vs now ordP ordB).
Proof.
  intros H0. unfold checkFailuresAndPromote.
  set (vs1 := markDead vs now).
  assert (H1 : ackJustified hist vs1) by exact H0.
  assert (H2 : ackJustified hist (checkPrimary vs1)).
  { destruct (checkPrimary_cases vs1) as [E|[(_&_&_&_&_&E)|(_&_&_&_&E)]]; rewrite E.
    - exact H1.
    - now apply ackJustified_unacked.
    - intros _. now left. }
  set (vs2 := checkPrimary vs1) in *.
  assert (H3 : ackJustified hist (checkBackup vs2)).
  { destruct (checkBackup_cases vs2) as [E|(_&_&E)]; rewrite E; [exact H2|].
    now apply (ackJustified_same hist vs2). }
  set (vs3 := checkBackup vs2) in *.
  assert (H4 : ackJustified hist (assignPrimary vs3 ordP)).
  { destruct (assignPrimary_cases vs3 ordP) as [E|(_&_&name&_&E)]; rewrite E;
      [exact H3|]. now apply ackJustified_unacked. }
  set (vs4 := assignPrimary vs3 ordP) in *.
  destruct (assignBackup_cases vs4 ordB) as [E|(_&_&_&name&_&E)]; rewrite E;
    [exact H4|]. now apply (ackJustified_same hist vs4).
Qed.

Lemma step_ackJustified hist vs op :
  ackJustified hist vs ->
  ackJustified (hist ++ match isAck vs op with Some a => [a] | None => [] end)
               (fst (step vs op)).
Proof.
  intros H. destruct op as [args now| |now ordP ordB]; unfold step.
  - pose proof (Ping_view vs args now) as [Hv _].
    pose proof (Ping_acked vs args now) as Ha.
    destruct (Ping vs args now) as [vs' v]. simpl fst in *.
    destruct (isAck vs (OpPing args now)) as [[name n]|] eqn:E;
      try rewrite E in Ha.
    + intros _. right. exists n. rewrite Hv. apply elem_of_app. right.
      unfold isAck in E.
      destruct (String.eqb (ServerName args) (Primary (currentView vs))) eqn:En;
        simpl in E; [|discriminate].
      destruct (Z.eqb _ _); [|discriminate].
      apply String.eqb_eq in En. injection E as <- <-. rewrite <- En.
      apply list_elem_of_singleton. reflexivity.
    + rewrite app_nil_r. apply (ackJustified_same hist vs); auto.
      now rewrite Hv.
  - simpl. rewrite app_nil_r. exact H.
  - simpl. rewrite app_nil_r. now apply tick_ackJustified.
Qed.

Lemma final_cons vs op ops :
  final vs (op :: ops) = final (fst (step vs op)) ops.
Proof.
  unfold final. cbn [run]. destruct (step vs op) as [vs1 r]. cbn [fst].
  destruct (run vs1 ops) as [vs2 rs]. reflexivity.
Qed.

Lemma published_cons vs op ops :
  published vs (op :: ops) =
    match snd (step vs op) with Some v => [v] | None => [] end
    ++ published (fst (step vs op)) ops.
Proof.
  unfold published. cbn [run]. destruct (step vs op) as [vs1 [v|]]; cbn [fst snd];
    destruct (run vs1 ops) as [vs2 rs]; reflexivity.
Qed.

Lemma run_ackJustified ops : forall hist vs,
  ackJustified hist vs -> ackJustified (hist ++ acks vs ops) (final vs ops).
Proof.
  induction ops as [|op ops IH]; intros hist vs H.
  - simpl. now rewrite app_nil_r.
  - rewrite final_cons. cbn [acks].
    pose proof (step_ackJustified hist vs op H) as H1.
    specialize (IH _ _ H1). rewrite <- app_assoc in IH.
    destruct (isAck vs op); exact IH.
Qed.

(** An acknowledgement on record is a ping that was sent. *)
Lemma acks_advertised ops : forall vs name n,
  (name, n) ∈ acks vs ops -> advertised name n ops = true.
Proof.
  induction ops as [|op ops IH]; intros vs name n H; cbn [acks] in H.
  - now apply elem_of_nil in H.
  - cbn [advertised existsb]. apply orb_true_iff.
    destruct (isAck vs op) as [a|] eqn:E.
    + apply elem_of_cons in H as [H|H].
      * left. subst a. destruct op as [args now| |]; simpl in E; try discriminate.
        destruct (_ && _); [|discriminate]. injection E as -> ->.
        now rewrite String.eqb_refl, Z.eqb_refl.
      * right. exact (IH _ _ _ H).
    + right. exact (IH _ _ _ H).
Qed.

(** What the gate does guarantee.  In every run from the start, when an
    operation moves the primary away from a replica A, the flag was set
    and A had sent a ping that passed the test of [Ping] at the time it
    arrived: it advertised the number of the view that was current
    then, and that view named A as primary. *)
Lemma primary_change_follows_some_ack ops op A :
  let vs := final StartServer ops in
  Primary (currentView vs) = A -> A <> "" ->
  Primary (currentView (fst (step vs op))) <> A ->
  primaryAcked vs = true
  /\ exists n, (A, n) ∈ acks StartServer ops /\ advertised A n ops = true.
Proof.
  intros vs HA Hne Hch.
  assert (Ha : primaryAcked vs = true).
  { destruct (primaryAcked vs) eqn:Ea; [reflexivity|]. exfalso. apply Hch.
    destruct op as [args now| |now ordP ordB]; unfold step.
    - pose proof (Ping_view vs args now) as [Hv _].
      destruct (Ping vs args now). simpl in *. now rewrite Hv.
    - exact HA.
    - simpl. rewrite <- HA. now apply tick_unacked_keeps_primary. }
  split; [exact Ha|].
  assert (H0 : ackJustified [] StartServer) by (intros _; now left).
  pose proof (run_ackJustified ops [] StartServer H0 Ha) as [E|[n Hn]].
  - fold vs in E. congruence.
  - fold vs in Hn. rewrite HA in Hn. simpl in Hn. exists n. split; [exact Hn|].
    now apply (acks_advertised ops StartServer).
Qed.

(** ** The new primary *)

Lemma find_first {A} (p : A -> bool) (l : list A) (x : A) :
  List.find p l = Some x ->
  p x = true
  /\ exists l1 l2, l = l1 ++ x :: l2 /\ forall y, y ∈ l1 -> p y = false.
Proof.
  induction l as [|a l IH]; simpl; [discriminate|].
  destruct (p a) eqn:Ea.
  - intros [= ->]. split; [exact Ea|]. exists [], l. split; [reflexivity|].
    intros y Hy. now apply elem_of_nil in Hy.
  - intros H. destruct (IH H) as (Hx & l1 & l2 & -> & Hl1). split; [exact Hx|].
    exists (a :: l1), l2. split; [reflexivity|].
    intros y Hy. apply elem_of_cons in Hy as [->|Hy]; auto.
Qed.

(* --------------------------------------------------------------------- *)
(** ** C1: acknowledgement safety                                         *)
(* --------------------------------------------------------------------- *)

(** C1.  The claim asks that a primary A is only replaced after A has
    advertised the number of the view it is replaced in.  The run
    [staleAckPrefix] followed by [staleAckTick] shows the code doing
    otherwise: A acknowledges view 1, the tick that adds backup B moves
    to view 2 and leaves primaryAcked set, A never pings again (no ping
    of the run comes from A with view number 2, the only acknowledgement
    on record is (A, 1)), and the tick that finds A dead promotes B:
    view (2, A, B) is followed by view (3, B, ""). *)
Theorem promotion_on_stale_ack :
  let before := final StartServer Scenarios.staleAckPrefix in
  let after := fst (step before Scenarios.staleAckTick) in
  currentView before = mkView 2 "A" "B"
  /\ primaryAcked before = true
  /\ acks StartServer Scenarios.staleAckPrefix = [("A", 1)]
  /\ advertised "A" 2 (Scenarios.staleAckPrefix ++ [Scenarios.staleAckTick]) = false
  /\ currentView after = mkView 3 "B" ""
  /\ primaryAcked after = false.
Proof. vm_compute. repeat split. Qed.

(* --------------------------------------------------------------------- *)
(** ** C2: the view number                                                *)
(* --------------------------------------------------------------------- *)

(** Each block of the tick that touches the view either leaves it as
    it is or adds one to its number. *)
Lemma checkPrimary_bump vs :
  currentView (checkPrimary vs) = currentView vs
  \/ vnum (checkPrimary vs) = uint64_wrap (vnum vs + 1).
Proof.
  destruct (checkPrimary_cases vs) as [E|[(_&_&_&_&_&E)|(_&_&_&_&E)]];
    rewrite E; simpl; auto.
Qed.

Lemma checkBackup_bump vs :
  currentView (checkBackup vs) = currentView vs
  \/ vnum (checkBackup vs) = uint64_wrap (vnum vs + 1).
Proof.
  destruct (checkBackup_cases vs) as [E|(_&_&E)]; rewrite E; simpl; auto.
Qed.

Lemma assignPrimary_bump vs order :
  currentView (assignPrimary vs order) = currentView vs
  \/ vnum (assignPrimary vs order) = uint64_wrap (vnum vs + 1).
Proof.
  destruct (assignPrimary_cases vs order) as [E|(_&_&name&_&E)];
    rewrite E; simpl; auto.
Qed.

Lemma assignBackup_bump vs order :
  currentView (assignBackup vs order) = currentView vs
  \/ vnum (assignBackup vs order) = uint64_wrap (vnum vs + 1).
Proof.
  destruct (assignBackup_cases vs order) as [E|(_&_&_&name&_&E)];
    rewrite E; simpl; auto.
Qed.

(** Of the two failure blocks at most one changes the view, and of the
    two assignment blocks at most one. *)
Lemma check_blocks_bump vs :
  currentView (checkBackup (checkPrimary vs)) = currentView vs
  \/ vnum (checkBackup (checkPrimary vs)) = uint64_wrap (vnum vs + 1).
Proof.
  destruct (checkPrimary_cases vs) as [E|[(_&_&_&_&_&E)|(_&_&_&_&E)]]; rewrite E.
  - apply checkBackup_bump.
  - rewrite checkBackup_no_backup by reflexivity. simpl. auto.
  - rewrite checkBackup_no_backup by reflexivity. simpl. auto.
Qed.

Lemma assign_blocks_bump vs ordP ordB :
  currentView (assignBackup (assignPrimary vs ordP) ordB) = currentView vs
  \/ vnum (assignBackup (assignPrimary vs ordP) ordB) = uint64_wrap (vnum vs + 1).
Proof.
  destruct (assignPrimary_cases vs ordP) as [E|(_&_&name&_&E)]; rewrite E.
  - apply assignBackup_bump.
  - rewrite assignBackup_unacked by reflexivity. simpl. auto.
Qed.

(** A tick leaves the view as it is or moves its number by exactly one
    or exactly two. *)
Lemma tick_view_or_bump vs now ordP ordB :
  currentView (checkFailuresAndPromote vs now ordP ordB) = currentView vs
  \/ vnum (checkFailuresAndPromote vs now ordP ordB) = uint64_wrap (vnum vs + 1)
  \/ vnum (checkFailuresAndPromote vs now ordP ordB) = uint64_wrap (vnum vs + 2).
Proof.
  unfold checkFailuresAndPromote.
  set (vs1 := markDead vs now).
  change (currentView vs) with (currentView vs1).
  destruct (assign_blocks_bump (checkBackup (checkPrimary vs1)) ordP ordB) as [Ha|Ha];
    destruct (check_blocks_bump vs1) as [Hc|Hc]; rewrite Ha.
  - left. exact Hc.
  - right. left. exact Hc.
  - right. left. now rewrite Hc.
  - right. right. rewrite Hc. apply uint64_wrap_twice.
Qed.

Lemma ticks_app ops1 ops2 : ticks (ops1 ++ ops2) = (ticks ops1 + ticks ops2)%nat.
Proof. unfold ticks. now rewrite List.filter_app, length_app. Qed.

Lemma published_app ops1 : forall vs ops2,
  published vs (ops1 ++ ops2) = published vs ops1 ++ published (final vs ops1) ops2.
Proof.
  induction ops1 as [|op ops1 IH]; intros vs ops2; [reflexivity|].
  cbn [app]. rewrite !published_cons, final_cons, IH. now rewrite app_assoc.
Qed.

(** The numbers along a run, as long as the counter does not wrap. *)
Lemma run_number_facts ops : forall vs,
  0 <= vnum vs -> vnum vs + 2 * Z.of_nat (ticks ops) < 2 ^ 64 ->
  vnum vs <= vnum (final vs ops) <= vnum vs + 2 * Z.of_nat (ticks ops)
  /\ StronglySorted Z.le (map ViewNumber (published vs ops))
  /\ Forall (fun n => vnum vs <= n <= vnum (final vs ops))
            (map ViewNumber (published vs ops)).
Proof.
  induction ops as [|op ops IH]; intros vs H0 H2.
  - change (ticks []) with O. cbn. repeat split; try lia; constructor.
  - rewrite ticks_cons in *. rewrite final_cons, published_cons.
    destruct (step_view_number vs op H0 ltac:(lia)) as [Hb Hr].
    destruct (IH (fst (step vs op)) ltac:(lia) ltac:(lia)) as (Hb' & Hs & Hf).
    split; [lia|].
    assert (Hf' : Forall (fun n => vnum vs <= n <= vnum (final (fst (step vs op)) ops))
                    (map ViewNumber (published (fst (step vs op)) ops))).
    { eapply Forall_impl; [exact Hf|]. cbv beta. intros n Hn. lia. }
    destruct (snd (step vs op)) as [v|]; cbn [app map].
    + destruct Hr as [-> Hv]. split.
      * constructor; [exact Hs|].
        eapply Forall_impl; [exact Hf'|]. cbv beta. intros n Hn. lia.
      * constructor; [lia|exact Hf'].
    + split; [exact Hs|exact Hf'].
Qed.

(** C2, as the code has it.
    - Ping and GetView answer with the current view and leave it alone.
    - Every change adds exactly one to the number (modulo 2^64): each of
      the four blocks of the tick that touch the view either leaves the
      view as it is or adds exactly one to its number, and at most two
      of them fire in one tick, so a tick leaves the view as it is or
      moves its number by exactly one or exactly two.
    - In every run in which the counter does not wrap around, the view
      number never decreases, and the numbers sent in replies are
      non-decreasing and lie between the first and the last number of
      the run.
    - Not every number is published: when a tick moves the number by
      two, the number in between is in no reply of the run. *)
Theorem view_number_nondecreasing :
  (forall vs args now,
     currentView (fst (Ping vs args now)) = currentView vs
     /\ snd (Ping vs args now) = currentView vs)
  /\ (forall vs,
     currentView (fst (GetView vs)) = currentView vs
     /\ snd (GetView vs) = currentView vs)
  /\ (forall vs now ordP ordB,
     currentView (markDead vs now) = currentView vs
     /\ (currentView (checkPrimary vs) = currentView vs
         \/ vnum (checkPrimary vs) = uint64_wrap (vnum vs + 1))
     /\ (currentView (checkBackup vs) = currentView vs
         \/ vnum (checkBackup vs) = uint64_wrap (vnum vs + 1))
     /\ (currentView (assignPrimary vs ordP) = currentView vs
         \/ vnum (assignPrimary vs ordP) = uint64_wrap (vnum vs + 1))
     /\ (currentView (assignBackup vs ordB) = currentView vs
         \/ vnum (assignBackup vs ordB) = uint64_wrap (vnum vs + 1))
     /\ (currentView (checkFailuresAndPromote vs now ordP ordB) = currentView vs
         \/ vnum (checkFailuresAndPromote vs now ordP ordB)
            = uint64_wrap (vnum vs + 1)
         \/ vnum (checkFailuresAndPromote vs now ordP ordB)
            = uint64_wrap (vnum vs + 2)))
  /\ (forall ops vs,
     0 <= vnum vs -> vnum vs + 2 * Z.of_nat (ticks ops) < 2 ^ 64 ->
     vnum vs <= vnum (final vs ops) <= vnum vs + 2 * Z.of_nat (ticks ops)
     /\ StronglySorted Z.le (map ViewNumber (published vs ops))
     /\ Forall (fun n => vnum vs <= n <= vnum (final vs ops))
               (map ViewNumber (published vs ops)))
  /\ (forall ops1 ops2 now ordP ordB vs,
     0 <= vnum vs ->
     vnum vs + 2 * Z.of_nat (ticks (ops1 ++ OpTick now ordP ordB :: ops2)) < 2 ^ 64 ->
     let before := final vs ops1 in
     vnum (checkFailuresAndPromote before now ordP ordB) = vnum before + 2 ->
     ~ In (vnum before + 1)
          (map ViewNumber
             (published vs (ops1 ++ OpTick now ordP ordB :: ops2)))).
Proof.
  split; [exact Ping_view|]. split; [exact GetView_view|].
  split.
  { intros vs now ordP ordB. split; [reflexivity|].
    split; [apply checkPrimary_bump|]. split; [apply checkBackup_bump|].
    split; [apply assignPrimary_bump|]. split; [apply assignBackup_bump|].
    apply tick_view_or_bump. }
  split; [intros ops vs; apply run_number_facts|].
  intros ops1 ops2 now ordP ordB vs H0 H2 before Hjump Hin.
  rewrite ticks_app, ticks_cons in H2.
  change (ticks [OpTick now ordP ordB]) with 1%nat in H2.
  rewrite published_app, published_cons in Hin. fold before in Hin.
  cbn [step snd fst app] in Hin.
  rewrite List.map_app in Hin. apply in_app_or in Hin.
  destruct (run_number_facts ops1 vs H0 ltac:(lia)) as (Hb1 & _ & Hf1).
  fold before in Hb1, Hf1.
  destruct Hin as [Hin|Hin].
  - rewrite Forall_forall in Hf1. apply list_elem_of_In in Hin.
    specialize (Hf1 _ Hin). cbv beta in Hf1. lia.
  - destruct (run_number_facts ops2 (checkFailuresAndPromote before now ordP ordB)
                ltac:(lia) ltac:(lia)) as (_ & _ & Hf2).
    rewrite Forall_forall in Hf2. apply list_elem_of_In in Hin.
    specialize (Hf2 _ Hin). cbv beta in Hf2. lia.
Qed.

Lemma view_number_nondecreasing_witness :
  (vnum StartServer <= vnum (final StartServer Scenarios.skipRun)
   <= vnum StartServer + 2 * Z.of_nat (ticks Scenarios.skipRun)
   /\ StronglySorted Z.le
        (map ViewNumber (published StartServer Scenarios.skipRun))
   /\ Forall (fun n => vnum StartServer <= n
                       <= vnum (final StartServer Scenarios.skipRun))
             (map ViewNumber (published StartServer Scenarios.skipRun)))
  /\ ~ In 2 (map ViewNumber (published StartServer Scenarios.skipRun)).
Proof.
  destruct view_number_nondecreasing as (_ & _ & _ & Hrun & Hskip).
  split.
  - apply (Hrun Scenarios.skipRun StartServer).
    + vm_compute. discriminate.
    + vm_compute. reflexivity.
  - apply (Hskip (removelast (removelast Scenarios.skipRun)) [OpGetView]
                 (3000 * Scenarios.ms) ["A"; "B"] ["A"; "B"] StartServer).
    + vm_compute. discriminate.
    + vm_compute. reflexivity.
    + vm_compute. reflexivity.
Defined.

(** C2, as stated, fails.  In [skipRun] a GetView follows every
    operation, so every view the service ever holds between two
    operations is sent in a reply.  The last tick finds primary A dead
    and acknowledged with no backup: it removes A (view 2) and assigns
    B (view 3) under the same lock.  The numbers seen in replies go
    from 1 to 3; 2 is never sent. *)
Lemma view_number_two_is_skipped :
  let ops := Scenarios.skipRun in
  let before := final StartServer (removelast (removelast ops)) in
  let after := fst (step before (OpTick (3000 * Scenarios.ms) ["A"; "B"] ["A"; "B"])) in
  map ViewNumber (published StartServer ops)
    = [0; 0; 1; 1; 1; 1; 1; 1; 1; 1; 1; 1; 1; 3]
  /\ ~ In 2 (map ViewNumber (published StartServer ops))
  /\ currentView before = mkView 1 "A" ""
  /\ currentView after = mkView 3 "B" ""
  /\ vnum after <> vnum before + 1.
Proof.
  vm_compute. repeat split; try discriminate.
  intros H. repeat (destruct H as [H|H]; [discriminate H|]). exact H.
Qed.

(* --------------------------------------------------------------------- *)
(** ** C4: a dead primary and no live backup                              *)
(* --------------------------------------------------------------------- *)




(* --------------------------------------------------------------------- *)
(** ** C5: which replica becomes primary                                  *)
(* --------------------------------------------------------------------- *)

(** C5, as the code has it.  When the view has no primary and
    primaryAcked is set, the new primary is the first name, in the
    order in which the loop visits the servers map, that is alive and
    is not the view's backup: every name visited before it is dead or
    is the backup.  The choice is a function of the visiting order,
    which Go does not fix; registration order plays no part. *)
Theorem new_primary_is_first_in_visiting_order vs order name :
  let v := currentView vs in
  Primary v = "" ->
  primaryAcked vs = true ->
  firstCandidate vs order (Backup v) = Some name ->
  let vs' := assignPrimary vs order in
  currentView vs' = mkView (uint64_wrap (ViewNumber v + 1)) name (Backup v)
  /\ primaryAcked vs' = false
  /\ knownAlive vs name = true
  /\ name <> Backup v
  /\ exists earlier later,
       order = earlier ++ name :: later
       /\ forall x, x ∈ earlier -> knownAlive vs x = false \/ x = Backup v.
Proof.
  intros v Hp Ha Hf vs'. subst vs'. unfold assignPrimary. fold v.
  rewrite Hp, Ha, Hf. simpl.
  apply find_first in Hf as (Hx & l1 & l2 & -> & Hl1).
  apply andb_true_iff in Hx as [Hx1 Hx2].
  apply negb_true_iff, String.eqb_neq in Hx2.
  repeat split; try assumption.
  exists l1, l2. split; [reflexivity|].
  intros x Hxl. specialize (Hl1 x Hxl). apply andb_false_iff in Hl1 as [H|H].
  - now left.
  - right. apply negb_false_iff in H. now apply String.eqb_eq.
Qed.

Lemma new_primary_is_first_in_visiting_order_witness :
  currentView (assignPrimary Scenarios.twoRegistered ["B"; "A"]) = mkView 1 "B" "".
Proof.
  exact (proj1 (new_primary_is_first_in_visiting_order
                  Scenarios.twoRegistered ["B"; "A"] "B"
                  eq_refl eq_refl eq_refl)).
Defined.

(** C5, as stated, fails.  A registers before B (the idle list, which
    is kept in registration order, reads [A; B]) and both are alive.
    ["A"; "B"] and ["B"; "A"] are both visiting orders of the servers
    map.  A tick that visits the map in the first order makes A
    primary, a tick on the same state that visits it in the second
    order makes B primary. *)
Lemma primary_choice_follows_visiting_order :
  let vs := Scenarios.twoRegistered in
  let now := 500 * Scenarios.ms in
  idleServers vs = ["A"; "B"]
  /\ knownAlive (markDead vs now) "A" = true
  /\ knownAlive (markDead vs now) "B" = true
  /\ currentView vs = mkView 0 "" ""
  /\ primaryAcked vs = true
  /\ map_order (servers vs) ["A"; "B"]
  /\ map_order (servers vs) ["B"; "A"]
  /\ currentView (checkFailuresAndPromote vs now ["A"; "B"] ["A"; "B"])
       = mkView 1 "A" ""
  /\ currentView (checkFailuresAndPromote vs now ["B"; "A"] ["B"; "A"])
       = mkView 1 "B" "".
Proof.
  repeat split; try (vm_compute; reflexivity).
  unfold map_order. vm_compute. apply perm_swap.
Qed.

End ViewServiceProofs.

(* ===================================================================== *)
(** * Properties of the replica                                           *)
(* ===================================================================== *)

Module KVServerProofs.
Import kvserver.

(** The element-wise copy of a map is the map. *)
Lemma copyMap_id (m : gmap string string) : copyMap m = m.
Proof.
  unfold copyMap.
  apply (map_fold_weak_ind (fun r m' => r = m')); [reflexivity|].
  intros k v m' r _ ->. reflexivity.
Qed.

Lemma role_test_true (r s : string) : r = s -> negb (String.eqb r s) = false.
Proof. intros ->. now rewrite String.eqb_refl. Qed.

Lemma role_test_false (r s : string) : r <> s -> negb (String.eqb r s) = true.
Proof. intros H. apply String.eqb_neq in H. now rewrite H. Qed.

(** C6.  A Put that arrives while the replica is primary and syncing is
    appended at the end of the pending queue and answered OK at once;
    the store is left as it was and nothing is sent to the backup. *)
Theorem Put_while_syncing_is_queued kv args net :
  role kv = "primary" -> syncing kv = true ->
  let '(kv', reply, sent) := Put kv args net in
  pendingQueue kv' = pendingQueue kv ++ [args]
  /\ PutReply_Err reply = OK
  /\ data kv' = data kv
  /\ sent = []
  /\ kv' = set_pendingQueue kv (pendingQueue kv ++ [args]).
Proof.
  intros Hr Hs. unfold Put, Put_enter.
  rewrite (role_test_true _ _ Hr), Hs. simpl. auto.
Qed.

Lemma Put_while_syncing_is_queued_witness :
  let kv := mkKVServer "s1" "vs" true (viewservice.mkView 2 "s1" "s2")
              {["a" := "1"]} "primary" "s2" true [mkPutArgs "b" "2"] in
  let '(kv', reply, sent) := Put kv (mkPutArgs "c" "3") (CallReturned OK) in
  pendingQueue kv' = [mkPutArgs "b" "2"; mkPutArgs "c" "3"]
  /\ PutReply_Err reply = OK
  /\ data kv' = {["a" := "1"]}
  /\ sent = []
  /\ kv' = set_pendingQueue kv [mkPutArgs "b" "2"; mkPutArgs "c" "3"].
Proof.
  exact (Put_while_syncing_is_queued
           (mkKVServer "s1" "vs" true (viewservice.mkView 2 "s1" "s2")
              {["a" := "1"]} "primary" "s2" true [mkPutArgs "b" "2"])
           (mkPutArgs "c" "3") (CallReturned OK) eq_refl eq_refl).
Defined.

(** ** A primary that is not syncing *)

Section SteadyPrimary.

Variable kv : KVServer.
Hypothesis Hrole : role kv = "primary".
Hypothesis Hsync : syncing kv = false.

(** [Put], spelled out. *)
Lemma Put_primary_steady args net :
  Put kv args net =
    (set_data kv (<[Key args := Value args]> (data kv)), mkPutReply OK,
     Put_forward (viewservice.Backup (currentView kv)) args net).
Proof.
  unfold Put, Put_enter.
  rewrite (role_test_true _ _ Hrole), Hsync. reflexivity.
Qed.


(** C9.  At a primary that is not syncing, Put(k, v) followed by Get(k)
    returns v with status OK, whatever happened to the forwarded
    update. *)
Theorem Put_Get_roundtrip k v net :
  let '(kv1, putReply, _) := Put kv (mkPutArgs k v) net in
  PutReply_Err putReply = OK
  /\ role kv1 = "primary"
  /\ snd (Get kv1 (mkGetArgs k)) = mkGetReply v OK.
Proof.
  rewrite Put_primary_steady. simpl.
  repeat split; [exact Hrole|].
  unfold Get. simpl. rewrite (role_test_true _ _ Hrole).
  now rewrite lookup_insert_eq.
Qed.

End SteadyPrimary.


Lemma Put_Get_roundtrip_witness :
  let kv := mkKVServer "s1" "vs" true (viewservice.mkView 1 "s1" "")
              {["a" := "0"]} "primary" "" false [] in
  let '(kv1, putReply, _) := Put kv (mkPutArgs "a" "1") DialError in
  PutReply_Err putReply = OK
  /\ role kv1 = "primary"
  /\ snd (Get kv1 (mkGetArgs "a")) = mkGetReply "1" OK.
Proof.
  exact (Put_Get_roundtrip
           (mkKVServer "s1" "vs" true (viewservice.mkView 1 "s1" "")
              {["a" := "0"]} "primary" "" false [])
           eq_refl eq_refl "a" "1" DialError).
Defined.

(** C8.  ForwardUpdate at a backup sets store[k] = v and answers OK;
    delivering the same update again changes nothing (same state, same
    reply); at a replica that is not backup it answers ErrNotPrimary
    and leaves the state alone. *)
Theorem ForwardUpdate_idempotent kv k v :
  let args := mkForwardUpdateArgs k v in
  let '(kv1, reply1) := ForwardUpdate kv args in
  (role kv = "backup" ->
     data kv1 = <[k := v]> (data kv)
     /\ data kv1 !! k = Some v
     /\ ForwardUpdateReply_Err reply1 = OK)
  /\ (role kv <> "backup" ->
     kv1 = kv /\ ForwardUpdateReply_Err reply1 = ErrNotPrimary)
  /\ ForwardUpdate kv1 args = (kv1, reply1).
Proof.
  unfold ForwardUpdate. simpl.
  destruct (String.eqb (role kv) "backup") eqn:E; simpl.
  - apply String.eqb_eq in E. split; [|split].
    + intros _. split; [reflexivity|]. split; [apply lookup_insert_eq|reflexivity].
    + intros Hne. contradiction.
    + rewrite E. simpl. unfold set_data. simpl.
      now rewrite insert_insert_eq.
  - apply String.eqb_neq in E. split; [|split].
    + intros Heq. contradiction.
    + intros _. split; reflexivity.
    + now rewrite (role_test_false _ _ E).
Qed.

Lemma ForwardUpdate_idempotent_witness :
  let kv := mkKVServer "s2" "vs" true (viewservice.mkView 2 "s1" "s2")
              {["a" := "1"]} "backup" "" false [] in
  data (fst (ForwardUpdate kv (mkForwardUpdateArgs "a" "7"))) !! "a" = Some "7".
Proof.
  exact (proj1 (proj2 (proj1
    (ForwardUpdate_idempotent
       (mkKVServer "s2" "vs" true (viewservice.mkView 2 "s1" "s2")
          {["a" := "1"]} "backup" "" false [])
       "a" "7") eq_refl))).
Defined.

(** C10.  SyncState looks at no field of the receiver: in every role it
    replaces the whole store by the snapshot and answers OK, so the
    store of a replica that is primary is overwritten like any other. *)
Theorem SyncState_overwrites_in_any_role kv snapshot viewNumber :
  let '(kv1, reply) := SyncState kv (mkSyncStateArgs snapshot viewNumber) in
  data kv1 = snapshot
  /\ SyncStateReply_Err reply = OK
  /\ kv1 = set_data kv snapshot
  /\ role kv1 = role kv.
Proof.
  unfold SyncState. simpl. rewrite copyMap_id. auto.
Qed.

(** ** State transfer *)

(** Replaying a queue at a primary that is not syncing applies every
    queued write, first in first out. *)
Lemma replay_primary pending : forall kv fwd,
  role kv = "primary" -> syncing kv = false ->
  fst (replay kv pending fwd) = set_data kv (applyAll (data kv) pending).
Proof.
  induction pending as [|a rest IH]; intros kv fwd Hr Hs.
  - destruct kv; reflexivity.
  - cbn [replay]. rewrite (Put_primary_steady kv Hr Hs).
    specialize (IH (set_data kv (<[Key a := Value a]> (data kv)))
                   (fun i => fwd (S i)) Hr Hs).
    destruct (replay _ rest _) as [kv2 evs2]. simpl in *. now subst kv2.
Qed.

Lemma transferState_done_queue kv :
  pendingQueue (fst (transferState_done kv)) = []
  /\ snd (transferState_done kv) = pendingQueue kv
  /\ fst (transferState_done kv) = set_pendingQueue (set_syncing kv false) [].
Proof.
  unfold transferState_done. simpl.
  destruct (pendingQueue kv) as [|a q] eqn:E; simpl.
  - split; [exact E|]. split; [reflexivity|].
    destruct kv; simpl in *. now subst.
  - split; [reflexivity|]. split; reflexivity.
Qed.

(** C3, as the code has it.  [handleViewChange] records the backup in
    lastBackup when it starts the transfer, and [transferState] never
    writes lastBackup: whether the transfer fails (connection or call
    error) or succeeds, it ends with syncing = false and lastBackup
    unchanged.  When it succeeds at a replica that is still primary,
    the pending queue is emptied and its writes are applied to the
    store in arrival order. *)
Theorem transferState_lastBackup_and_drain :
  (forall kv oldView,
     let v := currentView kv in
     viewservice.Primary v = me kv ->
     viewservice.Backup v <> "" ->
     viewservice.Backup v <> lastBackup kv ->
     handleViewChange kv oldView =
       (set_lastBackup (set_role kv "primary") (viewservice.Backup v),
        Some (viewservice.Backup v, viewservice.ViewNumber v)))
  /\ (forall kv backup viewNumber net fwd,
     role kv = "primary" ->
     let kv' := fst (transferState kv backup viewNumber net fwd) in
     syncing kv' = false
     /\ lastBackup kv' = lastBackup kv
     /\ match net with
        | CallReturned _ =>
            pendingQueue kv' = []
            /\ data kv' = applyAll (data kv) (pendingQueue kv)
        | _ => True
        end)
  /\ (forall kv oldView,
     viewservice.Backup (currentView kv) = lastBackup kv ->
     snd (handleViewChange kv oldView) = None).
Proof.
  split; [|split].
  - intros kv oldView v Hp Hb Hl. unfold handleViewChange. fold v.
    rewrite Hp, String.eqb_refl. simpl.
    rewrite (role_test_false _ _ Hb), (role_test_false _ _ Hl). reflexivity.
  - intros kv backup viewNumber net fwd Hr kv'. subst kv'.
    unfold transferState, transferState_begin.
    destruct net as [| |err]; simpl; [auto|auto|].
    destruct (transferState_done_queue (set_syncing kv true)) as (_ & Hq & Hkv).
    destruct (transferState_done (set_syncing kv true)) as [kv1 pending].
    simpl in Hq, Hkv. subst kv1 pending.
    pose proof (replay_primary (pendingQueue kv)
                  (set_pendingQueue (set_syncing (set_syncing kv true) false) [])
                  fwd Hr eq_refl) as Hrep.
    destruct (replay _ (pendingQueue kv) fwd) as [kv2 evs]. simpl in *.
    subst kv2. simpl. auto.
  - intros kv oldView Hb. unfold handleViewChange. cbv zeta.
    set (kv1 := if String.eqb (viewservice.Primary (currentView kv)) (me kv)
                then set_role kv "primary" else _).
    assert (Hl : lastBackup kv1 = lastBackup kv).
    { subst kv1. repeat case_match; reflexivity. }
    destruct (String.eqb (role kv1) "primary"); [|reflexivity].
    rewrite Hl, Hb, String.eqb_refl, andb_false_r.
    destruct (String.eqb (lastBackup kv) ""); reflexivity.
Qed.

Lemma transferState_lastBackup_and_drain_witness :
  let kv := mkKVServer "s1" "vs" true (viewservice.mkView 2 "s1" "s2")
              {["a" := "1"]} "primary" "s2" false
              [mkPutArgs "b" "2"; mkPutArgs "a" "3"] in
  let kv' := fst (transferState kv "s2" 2 (CallReturned OK)
                    (fun _ => CallReturned OK)) in
  syncing kv' = false
  /\ lastBackup kv' = "s2"
  /\ pendingQueue kv' = []
  /\ data kv' = <["a" := "3"]> (<["b" := "2"]> {["a" := "1"]}).
Proof.
  exact (proj1 (proj2 transferState_lastBackup_and_drain)
           (mkKVServer "s1" "vs" true (viewservice.mkView 2 "s1" "s2")
              {["a" := "1"]} "primary" "s2" false
              [mkPutArgs "b" "2"; mkPutArgs "a" "3"])
           "s2" 2 (CallReturned OK) (fun _ => CallReturned OK) eq_refl).
Defined.

(** C3, as stated, fails.  A primary "s1" learns view (2, s1, s2), which
    starts a transfer; a Put arrives while the snapshot is in flight and
    is queued; the SyncState call fails.  Afterwards lastBackup still
    names "s2", the queued write is still in the queue and not in the
    store, and a further view change that lists "s2" again starts no
    transfer. *)
Lemma failed_transfer_keeps_lastBackup :
  let kv0 := mkKVServer "s1" "vs" true (viewservice.mkView 1 "s1" "")
               {["a" := "1"]} "primary" "" false [] in
  let '(kv1, started) := ping_reply kv0 (viewservice.mkView 2 "s1" "s2") in
  let kv2 := fst (transferState_begin kv1) in
  let '(kv3, putReply, _) := Put kv2 (mkPutArgs "b" "2") (CallReturned OK) in
  let kv4 := transferState_callFailed kv3 in
  started = Some ("s2", 2)
  /\ PutReply_Err putReply = OK
  /\ syncing kv4 = false
  /\ lastBackup kv4 = "s2"
  /\ lastBackup kv4 <> ""
  /\ pendingQueue kv4 = [mkPutArgs "b" "2"]
  /\ data kv4 !! "b" = None
  /\ snd (ping_reply kv4 (viewservice.mkView 3 "s1" "s2")) = None.
Proof.
  vm_compute. repeat split; discriminate.
Qed.

End KVServerProofs.

(* ===================================================================== *)
(** * Further properties of the view service                              *)
(* ===================================================================== *)

Module ViewServiceExtras.
Import viewservice ViewServiceProofs.

(** ** What the blocks of the tick leave alone *)

Lemma checkPrimary_frame vs :
  servers (checkPrimary vs) = servers vs
  /\ rpcCount (checkPrimary vs) = rpcCount vs
  /\ idleServers (checkPrimary vs) = idleServers vs.
Proof.
  destruct (checkPrimary_cases vs) as [E|[(_&_&_&_&_&E)|(_&_&_&_&E)]];
    rewrite E; auto.
Qed.

Lemma checkBackup_frame vs :
  servers (checkBackup vs) = servers vs
  /\ rpcCount (checkBackup vs) = rpcCount vs
  /\ idleServers (checkBackup vs) = idleServers vs
  /\ primaryAcked (checkBackup vs) = primaryAcked vs
  /\ Primary (currentView (checkBackup vs)) = Primary (currentView vs).
Proof.
  destruct (checkBackup_cases vs) as [E|(_&_&E)]; rewrite E; auto 10.
Qed.

Lemma assignPrimary_frame vs order :
  servers (assignPrimary vs order) = servers vs
  /\ rpcCount (assignPrimary vs order) = rpcCount vs
  /\ Backup (currentView (assignPrimary vs order)) = Backup (currentView vs).
Proof.
  destruct (assignPrimary_cases vs order) as [E|(_&_&name&_&E)]; rewrite E; auto.
Qed.

Lemma assignBackup_frame vs order :
  servers (assignBackup vs order) = servers vs
  /\ rpcCount (assignBackup vs order) = rpcCount vs
  /\ primaryAcked (assignBackup vs order) = primaryAcked vs
  /\ Primary (currentView (assignBackup vs order)) = Primary (currentView vs).
Proof.
  destruct (assignBackup_cases vs order) as [E|(_&_&_&name&_&E)]; rewrite E; auto.
Qed.

(** A tick changes the records only by marking the silent ones dead,
    and does not count as an RPC. *)
Lemma tick_frame vs now ordP ordB :
  servers (checkFailuresAndPromote vs now ordP ordB) = markOne now <$> servers vs
  /\ rpcCount (checkFailuresAndPromote vs now ordP ordB) = rpcCount vs.
Proof.
  unfold checkFailuresAndPromote.
  destruct (assignBackup_frame
              (assignPrimary (checkBackup (checkPrimary (markDead vs now))) ordP)
              ordB) as (-> & -> & _).
  destruct (assignPrimary_frame (checkBackup (checkPrimary (markDead vs now))) ordP)
    as (-> & -> & _).
  destruct (checkBackup_frame (checkPrimary (markDead vs now))) as (-> & -> & _).
  destruct (checkPrimary_frame (markDead vs now)) as (-> & -> & _).
  split; reflexivity.
Qed.

Lemma knownAlive_tick vs now ordP ordB name :
  knownAlive (checkFailuresAndPromote vs now ordP ordB) name
  = knownAlive (markDead vs now) name.
Proof.
  unfold knownAlive. destruct (tick_frame vs now ordP ordB) as [-> _]. reflexivity.
Qed.

Lemma knownDead_tick vs now ordP ordB name :
  knownDead (checkFailuresAndPromote vs now ordP ordB) name
  = knownDead (markDead vs now) name.
Proof.
  unfold knownDead. destruct (tick_frame vs now ordP ordB) as [-> _]. reflexivity.
Qed.

(** ** Registration *)

Lemma recordPing_lookup vs name now :
  exists n, servers (recordPing vs name now) !! name = Some (mkServerInfo n now true).
Proof.
  unfold recordPing. destruct (servers vs !! name) as [sv|] eqn:E.
  - exists (Name sv). simpl. apply lookup_insert_eq.
  - exists name. destruct (negb _ && negb _); simpl; apply lookup_insert_eq.
Qed.

Lemma recordPing_lookup_ne vs name now other :
  other <> name ->
  servers (recordPing vs name now) !! other = servers vs !! other.
Proof.
  intros Hne. unfold recordPing. destruct (servers vs !! name) as [sv|] eqn:E.
  - simpl. now apply lookup_insert_ne.
  - destruct (negb _ && negb _); simpl; now apply lookup_insert_ne.
Qed.

Lemma Ping_servers vs args now :
  servers (fst (Ping vs args now))
  = servers (recordPing (incr_rpcCount vs) (ServerName args) now).
Proof. unfold Ping. simpl. destruct (_ && _); reflexivity. Qed.

(** ** Liveness of a replica *)

Lemma markOne_alive now sv :
  Alive (markOne now sv) = Alive sv && (now - LastPingTime sv <=? DeadInterval).
Proof.
  destruct sv as [n l a]. unfold markOne. simpl.
  destruct (Z.gtb_spec (now - l) DeadInterval) as [H|H];
    destruct (Z.leb_spec (now - l) DeadInterval) as [H'|H'];
    try lia; destruct a; reflexivity.
Qed.

(** X1.  The liveness flag of a replica after a tick depends on its
    last ping only: a replica that pinged at time [t] is alive after a
    tick at time [now] exactly when now - t <= 1500 ms.  A tick exactly
    1500 ms after the ping still finds it alive. *)
Theorem alive_iff_pinged_recently vs args t now ordP ordB :
  let vs1 := fst (Ping vs args t) in
  let vs2 := checkFailuresAndPromote vs1 now ordP ordB in
  knownAlive vs2 (ServerName args) = (now - t <=? DeadInterval)
  /\ knownDead vs2 (ServerName args) = negb (now - t <=? DeadInterval).
Proof.
  intros vs1 vs2. subst vs2.
  rewrite knownAlive_tick, knownDead_tick.
  unfold knownAlive, knownDead, markDead. simpl.
  rewrite !lookup_fmap. subst vs1. rewrite Ping_servers.
  destruct (recordPing_lookup (incr_rpcCount vs) (ServerName args) t) as [n ->].
  simpl. rewrite markOne_alive. simpl. split; reflexivity.
Qed.

(** A tick never revives a record. *)
Lemma knownDead_markDead vs now name :
  knownDead vs name = true -> knownDead (markDead vs now) name = true.
Proof.
  unfold knownDead, markDead. simpl. rewrite lookup_fmap.
  destruct (servers vs !! name) as [sv|]; simpl; [|discriminate].
  rewrite markOne_alive. intros H. apply negb_true_iff in H. now rewrite H.
Qed.

Lemma step_keeps_dead vs op name :
  pingsFrom name [op] = false ->
  knownDead vs name = true -> knownDead (fst (step vs op)) name = true.
Proof.
  intros Hp Hd. destruct op as [args t| |now ordP ordB]; unfold step.
  - simpl in Hp. rewrite orb_false_r in Hp. apply String.eqb_neq in Hp.
    destruct (Ping vs args t) as [vs' v] eqn:E. simpl.
    assert (Hs : servers vs' = servers (fst (Ping vs args t))) by now rewrite E.
    rewrite Ping_servers in Hs. unfold knownDead in *. rewrite Hs.
    rewrite recordPing_lookup_ne by congruence. exact Hd.
  - exact Hd.
  - simpl. rewrite knownDead_tick. now apply knownDead_markDead.
Qed.

(** X2.  The service never revives a replica on its own: a replica that
    is marked dead stays marked dead through every run in which it does
    not ping. *)
Theorem dead_until_next_ping ops : forall vs name,
  pingsFrom name ops = false ->
  knownDead vs name = true ->
  knownDead (final vs ops) name = true.
Proof.
  induction ops as [|op ops IH]; intros vs name Hp Hd; [exact Hd|].
  rewrite final_cons. cbn [pingsFrom existsb] in Hp.
  apply orb_false_iff in Hp as [Hp1 Hp2].
  apply IH; [exact Hp2|]. apply step_keeps_dead; [|exact Hd].
  cbn [pingsFrom existsb]. now rewrite Hp1.
Qed.

Lemma dead_until_next_ping_witness :
  let vs := checkFailuresAndPromote (final StartServer Scenarios.bothDeadPrefix)
              (5000 * Scenarios.ms) ["A"; "B"] ["A"; "B"] in
  knownDead
    (final vs [ OpPing (mkPingArgs "B" 3) (6000 * Scenarios.ms);
                OpGetView;
                OpTick (6500 * Scenarios.ms) ["A"; "B"] ["A"; "B"] ])
    "A" = true.
Proof.
  apply (dead_until_next_ping
           [ OpPing (mkPingArgs "B" 3) (6000 * Scenarios.ms);
             OpGetView;
             OpTick (6500 * Scenarios.ms) ["A"; "B"] ["A"; "B"] ]).
  - vm_compute. reflexivity.
  - vm_compute. reflexivity.
Defined.

(** ** The shape of the state is kept *)

Lemma knownAlive_registered vs name :
  knownAlive vs name = true -> is_Some (servers vs !! name).
Proof.
  unfold knownAlive. destruct (servers vs !! name); [eauto|discriminate].
Qed.

Lemma firstCandidate_spec vs order excluded name :
  firstCandidate vs order excluded = Some name ->
  knownAlive vs name = true /\ name <> excluded.
Proof.
  intros H. apply find_first in H as [H _].
  apply andb_true_iff in H as [H1 H2]. split; [exact H1|].
  now apply negb_true_iff, String.eqb_neq in H2.
Qed.

Lemma elem_of_removeFromIdle vs serverName name :
  name ∈ idleServers (removeFromIdle vs serverName) <->
  name ∈ idleServers vs /\ name <> serverName.
Proof.
  unfold removeFromIdle. simpl. rewrite !list_elem_of_In, filter_In.
  split; intros [H1 H2]; split; try exact H1.
  - now apply negb_true_iff, String.eqb_neq in H2.
  - now apply negb_true_iff, String.eqb_neq.
Qed.

Lemma NoDup_removeFromIdle vs serverName :
  NoDup (idleServers vs) -> NoDup (idleServers (removeFromIdle vs serverName)).
Proof.
  unfold removeFromIdle. simpl. intros H.
  apply NoDup_ListNoDup, List.NoDup_filter, NoDup_ListNoDup, H.
Qed.

Lemma markDead_wellFormed vs now : wellFormed vs -> wellFormed (markDead vs now).
Proof.
  intros (Hd & (Hp & Hb) & Hn & Hi). unfold wellFormed, distinctRoles,
    registeredView, idleOK, markDead in *. simpl.
  assert (Hf : forall name, is_Some (servers vs !! name) ->
                 is_Some ((markOne now <$> servers vs) !! name)).
  { intros name [sv E]. rewrite lookup_fmap, E. simpl. eauto. }
  repeat split; auto.
  - apply Hf. now apply Hi.
  - now apply Hi.
  - now apply Hi.
Qed.

Lemma checkPrimary_wellFormed vs : wellFormed vs -> wellFormed (checkPrimary vs).
Proof.
  intros H.
  destruct (checkPrimary_cases vs) as [E|[(_&_&Hb&_&Ha&E)|(_&_&_&_&E)]];
    rewrite E; [exact H| |].
  - destruct H as (Hd & (Hrp & Hrb) & Hn & Hi).
    unfold wellFormed, distinctRoles, registeredView, idleOK. simpl.
    repeat split; auto; try congruence.
    + now apply Hi.
    + intros _. now apply Hi.
  - destruct H as (Hd & (Hrp & Hrb) & Hn & Hi).
    unfold wellFormed, distinctRoles, registeredView, idleOK. simpl.
    repeat split; auto; try congruence. now apply Hi.
Qed.

Lemma checkBackup_wellFormed vs : wellFormed vs -> wellFormed (checkBackup vs).
Proof.
  intros H. destruct (checkBackup_cases vs) as [E|(_&_&E)]; rewrite E; [exact H|].
  destruct H as (Hd & (Hrp & Hrb) & Hn & Hi).
  unfold wellFormed, distinctRoles, registeredView, idleOK. simpl.
  repeat split; auto; try congruence.
  - now apply Hi.
  - now apply Hi.
Qed.

Lemma assignPrimary_wellFormed vs order :
  wellFormed vs -> wellFormed (assignPrimary vs order).
Proof.
  intros H.
  destruct (assignPrimary_cases vs order) as [E|(_&_&name&Hf&E)]; rewrite E;
    [exact H|].
  apply firstCandidate_spec in Hf as [Hal Hne].
  destruct H as (Hd & (Hrp & Hrb) & Hn & Hi).
  unfold wellFormed, distinctRoles, registeredView, idleOK.
  split; [simpl; auto|]. split; [simpl; split; auto|].
  - intros _. now apply knownAlive_registered.
  - split; [now apply NoDup_removeFromIdle|].
    intros x Hx. apply elem_of_removeFromIdle in Hx as [Hx Hxn]. simpl in Hx.
    simpl. destruct (Hi x Hx) as (H1 & H2 & H3). auto.
Qed.

Lemma assignBackup_wellFormed vs order :
  wellFormed vs -> wellFormed (assignBackup vs order).
Proof.
  intros H.
  destruct (assignBackup_cases vs order) as [E|(_&_&_&name&Hf&E)]; rewrite E;
    [exact H|].
  apply firstCandidate_spec in Hf as [Hal Hne].
  destruct H as (Hd & (Hrp & Hrb) & Hn & Hi).
  unfold wellFormed, distinctRoles, registeredView, idleOK.
  split; [simpl; auto|]. split; [simpl; split; auto|].
  - intros _. now apply knownAlive_registered.
  - split; [now apply NoDup_removeFromIdle|].
    intros x Hx. apply elem_of_removeFromIdle in Hx as [Hx Hxn]. simpl in Hx.
    simpl. destruct (Hi x Hx) as (H1 & H2 & H3). auto.
Qed.

Lemma tick_wellFormed vs now ordP ordB :
  wellFormed vs -> wellFormed (checkFailuresAndPromote vs now ordP ordB).
Proof.
  intros H. unfold checkFailuresAndPromote.
  apply assignBackup_wellFormed, assignPrimary_wellFormed,
    checkBackup_wellFormed, checkPrimary_wellFormed, markDead_wellFormed, H.
Qed.

Lemma set_acked_wellFormed vs b : wellFormed vs -> wellFormed (set_acked vs b).
Proof. intros H. exact H. Qed.

Lemma recordPing_wellFormed vs name now :
  wellFormed vs -> wellFormed (recordPing vs name now).
Proof.
  intros (Hd & (Hrp & Hrb) & Hn & Hi).
  assert (Hf : forall x, is_Some (servers vs !! x) ->
                 forall sv, is_Some (<[name := sv]> (servers vs) !! x)).
  { intros x Hx sv. destruct (decide (name = x)) as [->|Hne].
    - rewrite lookup_insert_eq. eauto.
    - now rewrite lookup_insert_ne. }
  unfold recordPing. destruct (servers vs !! name) as [sv|] eqn:E.
  - unfold wellFormed, distinctRoles, registeredView, idleOK. simpl.
    repeat split; auto.
    + apply Hf. now apply Hi.
    + now apply Hi.
    + now apply Hi.
  - destruct (negb (String.eqb name (Primary (currentView vs)))) eqn:E1;
      destruct (negb (String.eqb name (Backup (currentView vs)))) eqn:E2; simpl;
      unfold wellFormed, distinctRoles, registeredView, idleOK; simpl;
      try (repeat split; auto;
           [apply Hf; now apply Hi | now apply Hi | now apply Hi]).
    apply negb_true_iff, String.eqb_neq in E1, E2.
    split; [auto|]. split; [split; auto|]. split.
    + apply NoDup_app. split; [exact Hn|]. split; [|apply NoDup_singleton].
      intros x Hx Hx'. apply list_elem_of_singleton in Hx'. subst x.
      destruct (Hi name Hx) as ([sv Hsv] & _). congruence.
    + intros x Hx. apply elem_of_app in Hx as [Hx|Hx].
      * destruct (Hi x Hx) as (H1 & H2 & H3). auto.
      * apply list_elem_of_singleton in Hx. subst x.
        rewrite lookup_insert_eq. repeat split; eauto.
Qed.

Lemma step_wellFormed vs op : wellFormed vs -> wellFormed (fst (step vs op)).
Proof.
  intros H. destruct op as [args now| |now ordP ordB]; unfold step.
  - unfold Ping. simpl.
    assert (H1 : wellFormed (recordPing (incr_rpcCount vs) (ServerName args) now))
      by (apply recordPing_wellFormed; exact H).
    destruct (_ && _); simpl; exact H1.
  - exact H.
  - simpl. now apply tick_wellFormed.
Qed.

Lemma run_wellFormed ops : forall vs, wellFormed vs -> wellFormed (final vs ops).
Proof.
  induction ops as [|op ops IH]; intros vs H; [exact H|].
  rewrite final_cons. apply IH. now apply step_wellFormed.
Qed.

Lemma StartServer_wellFormed : wellFormed StartServer.
Proof.
  unfold wellFormed, distinctRoles, registeredView, idleOK. simpl.
  split; [congruence|]. split; [split; congruence|].
  split; [apply NoDup_nil_2|].
  intros name H. now apply elem_of_nil in H.
Qed.

(** X3.  In every run from the start, a view that has a primary never
    names the same replica as its backup. *)
Theorem primary_and_backup_differ ops :
  let v := currentView (final StartServer ops) in
  Primary v <> "" -> Primary v <> Backup v.
Proof.
  intros v. exact (proj1 (run_wellFormed ops StartServer StartServer_wellFormed)).
Qed.

Lemma primary_and_backup_differ_witness :
  Primary (currentView (final StartServer Scenarios.staleAckPrefix))
  <> Backup (currentView (final StartServer Scenarios.staleAckPrefix)).
Proof.
  apply (primary_and_backup_differ Scenarios.staleAckPrefix).
  vm_compute. discriminate.
Defined.

Lemma step_keeps_record vs op name :
  is_Some (servers vs !! name) -> is_Some (servers (fst (step vs op)) !! name).
Proof.
  intros H. destruct op as [args t| |now ordP ordB]; unfold step.
  - destruct (Ping vs args t) as [vs' v] eqn:E. simpl.
    assert (Hs : servers vs' = servers (fst (Ping vs args t))) by now rewrite E.
    rewrite Hs, Ping_servers.
    destruct (decide (name = ServerName args)) as [->|Hne].
    + destruct (recordPing_lookup (incr_rpcCount vs) (ServerName args) t) as [n ->].
      eauto.
    + now rewrite recordPing_lookup_ne.
  - exact H.
  - simpl. destruct (tick_frame vs now ordP ordB) as [-> _].
    rewrite lookup_fmap. destruct H as [sv ->]. simpl. eauto.
Qed.

(** X4.  In every run from the start, the primary and the backup named
    by the view have a record in the servers map; and a record, once
    made by a first ping, is never removed, whatever happens next. *)
Theorem view_names_registered_replicas :
  (forall ops,
     let vs := final StartServer ops in
     (Primary (currentView vs) <> "" ->
        is_Some (servers vs !! Primary (currentView vs)))
     /\ (Backup (currentView vs) <> "" ->
        is_Some (servers vs !! Backup (currentView vs))))
  /\ (forall ops vs args now name,
     name = ServerName args \/ is_Some (servers vs !! name) ->
     is_Some (servers (final (fst (Ping vs args now)) ops) !! name)).
Proof.
  split.
  - intros ops vs.
    exact (proj1 (proj2 (run_wellFormed ops StartServer StartServer_wellFormed))).
  - intros ops vs args now name H.
    assert (H1 : is_Some (servers (fst (Ping vs args now)) !! name)).
    { destruct H as [->|H].
      - rewrite Ping_servers.
        destruct (recordPing_lookup (incr_rpcCount vs) (ServerName args) now)
          as [n ->]. eauto.
      - apply (step_keeps_record vs (OpPing args now) name) in H.
        unfold step in H. destruct (Ping vs args now). exact H. }
    clear H. revert H1. generalize (fst (Ping vs args now)). clear vs.
    induction ops as [|op ops IH]; intros vs H; [exact H|].
    rewrite final_cons. apply IH. now apply step_keeps_record.
Qed.

Lemma view_names_registered_replicas_witness :
  is_Some (servers (final (fst (Ping StartServer (mkPingArgs "A" 0) 0))
                      [OpTick (5000 * Scenarios.ms) ["A"] ["A"]; OpGetView])
           !! "A").
Proof.
  apply (proj2 view_names_registered_replicas
           [OpTick (5000 * Scenarios.ms) ["A"] ["A"]; OpGetView]
           StartServer (mkPingArgs "A" 0) 0 "A").
  left. reflexivity.
Defined.

(** X5.  In every run from the start, the idle list holds registered
    names, each at most once, and never the replica that the view names
    as primary or as backup. *)
Theorem idle_list_excludes_view ops :
  let vs := final StartServer ops in
  NoDup (idleServers vs)
  /\ forall name, name ∈ idleServers vs ->
       is_Some (servers vs !! name)
       /\ (Primary (currentView vs) <> "" -> name <> Primary (currentView vs))
       /\ (Backup (currentView vs) <> "" -> name <> Backup (currentView vs)).
Proof.
  intros vs.
  exact (proj2 (proj2 (run_wellFormed ops StartServer StartServer_wellFormed))).
Qed.

Lemma idle_list_excludes_view_witness :
  let vs := final StartServer
              [ OpPing (mkPingArgs "A" 0) 0;
                OpPing (mkPingArgs "B" 0) 0;
                OpPing (mkPingArgs "C" 0) 0;
                OpTick (100 * Scenarios.ms) ["A"; "B"; "C"] ["A"; "B"; "C"] ] in
  idleServers vs = ["B"; "C"] /\ "B" <> Primary (currentView vs).
Proof.
  split; [vm_compute; reflexivity|].
  apply (proj2 (idle_list_excludes_view
                  [ OpPing (mkPingArgs "A" 0) 0;
                    OpPing (mkPingArgs "B" 0) 0;
                    OpPing (mkPingArgs "C" 0) 0;
                    OpTick (100 * Scenarios.ms) ["A"; "B"; "C"] ["A"; "B"; "C"] ])
               "B").
  - vm_compute. apply list_elem_of_In. left. reflexivity.
  - vm_compute. discriminate.
Defined.

(** ** The number identifies the view *)

Lemma check_view_or_number vs :
  let vs' := checkBackup (checkPrimary vs) in
  currentView vs' = currentView vs \/ vnum vs' = uint64_wrap (vnum vs + 1).
Proof.
  intros vs'. subst vs'.
  destruct (checkPrimary_cases vs) as [E|[(_&_&_&_&_&E)|(_&_&_&_&E)]]; rewrite E.
  - destruct (checkBackup_cases vs) as [E'|(_&_&E')]; rewrite E'; simpl; auto.
  - rewrite checkBackup_no_backup by reflexivity. simpl. auto.
  - rewrite checkBackup_no_backup by reflexivity. simpl. auto.
Qed.

Lemma assign_view_or_number vs ordP ordB :
  let vs' := assignBackup (assignPrimary vs ordP) ordB in
  currentView vs' = currentView vs \/ vnum vs' = uint64_wrap (vnum vs + 1).
Proof.
  intros vs'. subst vs'.
  destruct (assignPrimary_cases vs ordP) as [E|(_&_&name&_&E)]; rewrite E.
  - destruct (assignBackup_cases vs ordB) as [E'|(_&_&_&name&_&E')];
      rewrite E'; simpl; auto.
  - rewrite assignBackup_unacked by reflexivity. simpl. auto.
Qed.

(** A tick that leaves the number alone leaves the view alone. *)
Lemma tick_same_number vs now ordP ordB :
  0 <= vnum vs -> vnum vs + 2 < 2 ^ 64 ->
  vnum (checkFailuresAndPromote vs now ordP ordB) = vnum vs ->
  currentView (checkFailuresAndPromote vs now ordP ordB) = currentView vs.
Proof.
  intros H0 H2. unfold checkFailuresAndPromote.
  set (vs1 := markDead vs now).
  change (currentView vs) with (currentView vs1).
  pose proof (check_view_or_number vs1) as Hc. simpl in Hc.
  pose proof (check_view_number vs1) as Hc'. simpl in Hc'.
  set (vs3 := checkBackup (checkPrimary vs1)) in *.
  pose proof (assign_view_or_number vs3 ordP ordB) as Ha. simpl in Ha.
  assert (Hv1 : vnum vs1 = vnum vs) by reflexivity.
  intros Hn.
  destruct Ha as [Ha|Ha].
  - rewrite Ha in *. destruct Hc as [Hc|Hc]; [exact Hc|].
    rewrite Hc, uint64_wrap_small in Hn by lia. lia.
  - rewrite Ha in Hn. destruct Hc' as [Hc'|Hc'].
    + rewrite Hc', uint64_wrap_small in Hn by lia. lia.
    + rewrite Hc', uint64_wrap_twice, uint64_wrap_small in Hn by lia. lia.
Qed.

Lemma step_same_number vs op :
  0 <= vnum vs -> vnum vs + 2 * Z.of_nat (ticks [op]) < 2 ^ 64 ->
  vnum (fst (step vs op)) = vnum vs ->
  currentView (fst (step vs op)) = currentView vs.
Proof.
  intros H0 H2. destruct op as [args t| |now ordP ordB]; unfold step.
  - intros _. destruct (Ping_view vs args t) as [Hv _].
    destruct (Ping vs args t). exact Hv.
  - reflexivity.
  - simpl. change (Z.of_nat (ticks [OpTick now ordP ordB])) with 1 in H2.
    apply tick_same_number; lia.
Qed.

(** The numbers of a run stay between the first and the last one. *)
Lemma run_view_number_bounds ops : forall vs,
  0 <= vnum vs -> vnum vs + 2 * Z.of_nat (ticks ops) < 2 ^ 64 ->
  vnum vs <= vnum (final vs ops) <= vnum vs + 2 * Z.of_nat (ticks ops)
  /\ Forall (fun v => vnum vs <= ViewNumber v) (published vs ops).
Proof.
  induction ops as [|op ops IH]; intros vs H0 H2.
  - change (ticks []) with O. cbn. split; [lia|constructor].
  - rewrite ticks_cons in *. rewrite final_cons, published_cons.
    destruct (step_view_number vs op H0 ltac:(lia)) as [Hb Hr].
    destruct (IH (fst (step vs op)) ltac:(lia) ltac:(lia)) as (Hb' & Hf).
    split; [lia|]. apply Forall_app. split.
    + destruct (snd (step vs op)) as [v|]; [|constructor].
      destruct Hr as [-> _]. constructor; [lia|constructor].
    + eapply Forall_impl; [exact Hf|]. cbv beta. intros v Hv. lia.
Qed.

Lemma published_same_number ops : forall vs v,
  0 <= vnum vs -> vnum vs + 2 * Z.of_nat (ticks ops) < 2 ^ 64 ->
  v ∈ published vs ops -> ViewNumber v = vnum vs -> v = currentView vs.
Proof.
  induction ops as [|op ops IH]; intros vs v H0 H2 Hin Hn.
  - now apply elem_of_nil in Hin.
  - rewrite ticks_cons in H2. rewrite published_cons in Hin.
    destruct (step_view_number vs op H0 ltac:(lia)) as [Hb Hr].
    apply elem_of_app in Hin as [Hin|Hin].
    + destruct (snd (step vs op)) as [w|]; [|now apply elem_of_nil in Hin].
      apply list_elem_of_singleton in Hin. subst w. now destruct Hr.
    + destruct (run_view_number_bounds ops (fst (step vs op)) ltac:(lia) ltac:(lia))
        as [_ Hf].
      rewrite Forall_forall in Hf. specialize (Hf v Hin). cbv beta in Hf.
      assert (Hs : vnum (fst (step vs op)) = vnum vs) by lia.
      rewrite <- (step_same_number vs op H0 ltac:(lia) Hs).
      apply IH; try lia. exact Hin.
Qed.

(** X6.  The number identifies the view: in a run in which the counter
    does not wrap around, two views sent in replies that carry the same
    number are the same view.  (A replica compares numbers only to
    decide whether the view has changed.) *)
Theorem same_number_same_view ops : forall vs v w,
  0 <= vnum vs -> vnum vs + 2 * Z.of_nat (ticks ops) < 2 ^ 64 ->
  v ∈ published vs ops -> w ∈ published vs ops ->
  ViewNumber v = ViewNumber w -> v = w.
Proof.
  induction ops as [|op ops IH]; intros vs v w H0 H2 Hv Hw Hn.
  - now apply elem_of_nil in Hv.
  - pose proof H2 as H2'. rewrite ticks_cons in H2.
    pose proof (published_same_number (op :: ops) vs) as Hsame.
    rewrite published_cons in Hv, Hw.
    destruct (step_view_number vs op H0 ltac:(lia)) as [Hb Hr].
    assert (Hfirst : forall x, x ∈ match snd (step vs op) with
                                   | Some v => [v] | None => [] end ->
                               x = currentView vs).
    { intros x Hx. destruct (snd (step vs op)) as [y|];
        [|now apply elem_of_nil in Hx].
      apply list_elem_of_singleton in Hx. subst y. now destruct Hr. }
    assert (Hrest : forall x, x ∈ published (fst (step vs op)) ops ->
                              x ∈ published vs (op :: ops)).
    { intros x Hx. rewrite published_cons. apply elem_of_app. now right. }
    apply elem_of_app in Hv as [Hv|Hv]; apply elem_of_app in Hw as [Hw|Hw].
    + rewrite (Hfirst v Hv), (Hfirst w Hw). reflexivity.
    + rewrite (Hfirst v Hv) in *. symmetry.
      apply (Hsame w H0 H2' (Hrest w Hw)). now rewrite <- Hn.
    + rewrite (Hfirst w Hw) in *.
      apply (Hsame v H0 H2' (Hrest v Hv)). exact Hn.
    + apply (IH (fst (step vs op))); try lia; assumption.
Qed.

Lemma same_number_same_view_witness :
  mkView 1 "A" "" = mkView 1 "A" "".
Proof.
  apply (same_number_same_view Scenarios.skipRun StartServer
           (mkView 1 "A" "") (mkView 1 "A" "")).
  - vm_compute. discriminate.
  - vm_compute. reflexivity.
  - vm_compute. apply list_elem_of_In. right. right. left. reflexivity.
  - vm_compute. apply list_elem_of_In. right. right. right. left. reflexivity.
  - reflexivity.
Defined.

(** ** What a tick installs *)

Lemma knownAlive_not_dead vs name :
  knownAlive vs name = true -> knownDead vs name = false.
Proof.
  unfold knownAlive, knownDead. destruct (servers vs !! name); [|discriminate].
  intros ->. reflexivity.
Qed.

Lemma knownAlive_servers a b name :
  servers a = servers b -> knownAlive a name = knownAlive b name.
Proof. unfold knownAlive. now intros ->. Qed.

Lemma knownDead_servers a b name :
  servers a = servers b -> knownDead a name = knownDead b name.
Proof. unfold knownDead. now intros ->. Qed.

Lemma checkPrimary_roles vs :
  let vs' := checkPrimary vs in
  (Primary (currentView vs') = Primary (currentView vs)
   \/ Primary (currentView vs') = ""
   \/ knownAlive vs (Primary (currentView vs')) = true)
  /\ (Backup (currentView vs') = Backup (currentView vs)
      \/ Backup (currentView vs') = "").
Proof.
  intros vs'. subst vs'.
  destruct (checkPrimary_cases vs) as [E|[(_&_&_&_&Hl&E)|(_&_&_&_&E)]];
    rewrite E; simpl; auto.
Qed.

Lemma checkBackup_roles vs :
  let vs' := checkBackup vs in
  (Backup (currentView vs') = Backup (currentView vs)
   \/ Backup (currentView vs') = "")
  /\ (Backup (currentView vs') = ""
      \/ knownDead vs (Backup (currentView vs')) = false).
Proof.
  intros vs'. subst vs'. unfold checkBackup.
  destruct (String.eqb (Backup (currentView vs)) "") eqn:Eb; simpl.
  - apply String.eqb_eq in Eb. auto.
  - destruct (knownDead vs (Backup (currentView vs))) eqn:Ed; simpl; auto.
Qed.

Lemma assignPrimary_roles vs order :
  let vs' := assignPrimary vs order in
  Primary (currentView vs') = Primary (currentView vs)
  \/ knownAlive vs (Primary (currentView vs')) = true.
Proof.
  intros vs'. subst vs'.
  destruct (assignPrimary_cases vs order) as [E|(_&_&name&Hf&E)]; rewrite E;
    [now left|].
  right. simpl. now apply firstCandidate_spec in Hf.
Qed.

Lemma assignBackup_roles vs order :
  let vs' := assignBackup vs order in
  Backup (currentView vs') = Backup (currentView vs)
  \/ knownAlive vs (Backup (currentView vs')) = true.
Proof.
  intros vs'. subst vs'.
  destruct (assignBackup_cases vs order) as [E|(_&_&_&name&Hf&E)]; rewrite E;
    [now left|].
  right. simpl. now apply firstCandidate_spec in Hf.
Qed.

(** X7.  A tick never installs a replica it holds for dead: after any
    tick the backup named by the view, if any, is not marked dead; and
    when the tick changes the primary or the backup, the new one is
    either nobody or a replica that is alive. *)
Theorem tick_installs_only_live vs now ordP ordB :
  let vs' := checkFailuresAndPromote vs now ordP ordB in
  let v := currentView vs in
  let v' := currentView vs' in
  (Backup v' = "" \/ knownDead vs' (Backup v') = false)
  /\ (Primary v' = Primary v \/ Primary v' = ""
      \/ knownAlive vs' (Primary v') = true)
  /\ (Backup v' = Backup v \/ Backup v' = ""
      \/ knownAlive vs' (Backup v') = true).
Proof.
  intros vs' v v'.
  assert (Hal : forall name, knownAlive vs' name = knownAlive (markDead vs now) name)
    by (intros; apply knownAlive_tick).
  assert (Hde : forall name, knownDead vs' name = knownDead (markDead vs now) name)
    by (intros; apply knownDead_tick).
  subst v v' vs'. unfold checkFailuresAndPromote in *.
  set (vs1 := markDead vs now) in *.
  change (currentView vs) with (currentView vs1).
  set (vs2 := checkPrimary vs1) in *.
  set (vs3 := checkBackup vs2) in *.
  set (vs4 := assignPrimary vs3 ordP) in *.
  destruct (checkPrimary_frame vs1) as (S2 & _).
  destruct (checkBackup_frame vs2) as (S3 & _ & _ & _ & P3).
  destruct (assignPrimary_frame vs3 ordP) as (S4 & _ & B4).
  destruct (assignBackup_frame vs4 ordB) as (S5 & _ & _ & P5).
  fold vs2 in S2. fold vs3 in S3, P3. fold vs4 in S4, B4.
  assert (T2 : servers vs2 = servers vs1) by exact S2.
  assert (T3 : servers vs3 = servers vs1) by congruence.
  assert (T4 : servers vs4 = servers vs1) by congruence.
  pose proof (checkPrimary_roles vs1) as [R2p R2b]. fold vs2 in R2p, R2b.
  pose proof (checkBackup_roles vs2) as [R3b R3d]. fold vs3 in R3b, R3d.
  pose proof (assignPrimary_roles vs3 ordP) as R4. fold vs4 in R4.
  pose proof (assignBackup_roles vs4 ordB) as R5.
  cbv zeta in *.
  rewrite (knownDead_servers vs2 vs1 _ T2) in R3d.
  rewrite (knownAlive_servers vs3 vs1 _ T3) in R4.
  rewrite (knownAlive_servers vs4 vs1 _ T4) in R5.
  rewrite !Hal, !Hde. rewrite P5.
  split; [|split].
  - destruct R5 as [R5|R5].
    + rewrite R5, B4. exact R3d.
    + right. now apply knownAlive_not_dead.
  - destruct R4 as [R4|R4]; [|auto].
    rewrite R4, P3. exact R2p.
  - destruct R5 as [R5|R5]; [|auto].
    rewrite R5, B4. destruct R3b as [R3b|R3b]; [|auto].
    rewrite R3b. destruct R2b as [R2b|R2b]; auto.
Qed.

(** X8.  A tick on a healthy pair changes nothing but the liveness
    flags: when neither the primary nor the backup named by the view is
    found dead, the view, the acknowledgement flag and the idle list are
    as before, even if further replicas are waiting. *)
Theorem healthy_tick_keeps_view vs now ordP ordB :
  let vs1 := markDead vs now in
  Primary (currentView vs) <> "" ->
  Backup (currentView vs) <> "" ->
  knownDead vs1 (Primary (currentView vs)) = false ->
  knownDead vs1 (Backup (currentView vs)) = false ->
  checkFailuresAndPromote vs now ordP ordB = vs1.
Proof.
  intros vs1 Hp Hb Hdp Hdb. unfold checkFailuresAndPromote. fold vs1.
  assert (E2 : checkPrimary vs1 = vs1).
  { unfold checkPrimary. change (currentView vs1) with (currentView vs).
    now rewrite (eqb_empty_false _ Hp), Hdp. }
  rewrite E2.
  assert (E3 : checkBackup vs1 = vs1).
  { unfold checkBackup. change (currentView vs1) with (currentView vs).
    now rewrite (eqb_empty_false _ Hb), Hdb. }
  rewrite E3.
  assert (E4 : assignPrimary vs1 ordP = vs1).
  { unfold assignPrimary. change (currentView vs1) with (currentView vs).
    now rewrite (eqb_empty_false _ Hp). }
  rewrite E4.
  unfold assignBackup. change (currentView vs1) with (currentView vs).
  now rewrite (eqb_empty_false _ Hb).
Qed.

Lemma healthy_tick_keeps_view_witness :
  let vs := final StartServer Scenarios.bothDeadPrefix in
  let now := 1500 * Scenarios.ms in
  currentView (checkFailuresAndPromote vs now ["A"; "B"] ["A"; "B"])
  = mkView 2 "A" "B".
Proof.
  cbv zeta.
  rewrite (healthy_tick_keeps_view
             (final StartServer Scenarios.bothDeadPrefix)
             (1500 * Scenarios.ms) ["A"; "B"] ["A"; "B"]).
  - vm_compute. reflexivity.
  - vm_compute. discriminate.
  - vm_compute. discriminate.
  - vm_compute. reflexivity.
  - vm_compute. reflexivity.
Defined.

(** X9.  While the primary has not acknowledged, a tick does nothing
    beyond marking silent replicas dead and dropping a dead backup: no
    primary is removed, promoted or assigned and no backup is
    assigned. *)
Theorem unacked_tick_only_drops_backup vs now ordP ordB :
  primaryAcked vs = false ->
  checkFailuresAndPromote vs now ordP ordB = checkBackup (markDead vs now).
Proof.
  intros Ha. unfold checkFailuresAndPromote.
  set (vs1 := markDead vs now).
  assert (Ha1 : primaryAcked vs1 = false) by exact Ha.
  assert (E2 : checkPrimary vs1 = vs1).
  { destruct (checkPrimary_cases vs1) as [E|[(C&_)|(C&_)]]; congruence. }
  rewrite E2.
  destruct (checkBackup_frame vs1) as (_ & _ & _ & Hf & _).
  rewrite Ha1 in Hf.
  now rewrite (assignPrimary_unacked _ ordP Hf), (assignBackup_unacked _ ordB Hf).
Qed.

Lemma unacked_tick_only_drops_backup_witness :
  let vs := fst (step (final StartServer Scenarios.staleAckPrefix)
                      Scenarios.staleAckTick) in
  let now := 9000 * Scenarios.ms in
  checkFailuresAndPromote vs now ["A"; "B"] ["A"; "B"] = checkBackup (markDead vs now).
Proof.
  apply (unacked_tick_only_drops_backup
           (fst (step (final StartServer Scenarios.staleAckPrefix)
                      Scenarios.staleAckTick))).
  vm_compute. reflexivity.
Defined.

(** X10.  Promotion: when the tick finds the primary dead and
    acknowledged and the backup alive, the view becomes
    (view_number + 1, old backup, no backup) with the acknowledgement
    flag cleared, and the tick stops there: no new backup is assigned
    in the same tick, whoever else is alive. *)
Theorem promotion_makes_backup_primary vs now ordP ordB :
  let vs1 := markDead vs now in
  let v := currentView vs in
  Primary v <> "" ->
  knownDead vs1 (Primary v) = true ->
  primaryAcked vs = true ->
  Backup v <> "" ->
  knownAlive vs1 (Backup v) = true ->
  checkFailuresAndPromote vs now ordP ordB =
    set_acked (set_view vs1 (mkView (uint64_wrap (ViewNumber v + 1)) (Backup v) ""))
              false.
Proof.
  intros vs1 v Hp Hd Ha Hb Hl. unfold checkFailuresAndPromote. fold vs1.
  assert (E2 : checkPrimary vs1 =
               set_acked
                 (set_view vs1 (mkView (uint64_wrap (ViewNumber v + 1)) (Backup v) ""))
                 false).
  { unfold checkPrimary. change (currentView vs1) with v.
    change (primaryAcked vs1) with (primaryAcked vs).
    now rewrite (eqb_empty_false _ Hp), Hd, Ha, (eqb_empty_false _ Hb), Hl. }
  rewrite E2. rewrite checkBackup_no_backup by reflexivity.
  rewrite assignPrimary_unacked by reflexivity.
  now rewrite assignBackup_unacked by reflexivity.
Qed.

Lemma promotion_makes_backup_primary_witness :
  let vs := final StartServer
              [ OpPing (mkPingArgs "A" 0) 0;
                OpTick (100 * Scenarios.ms) ["A"] ["A"];
                OpPing (mkPingArgs "A" 1) (200 * Scenarios.ms);
                OpPing (mkPingArgs "B" 0) (300 * Scenarios.ms);
                OpPing (mkPingArgs "C" 0) (300 * Scenarios.ms);
                OpTick (400 * Scenarios.ms) ["A"; "B"; "C"] ["A"; "B"; "C"];
                OpPing (mkPingArgs "A" 2) (500 * Scenarios.ms);
                OpPing (mkPingArgs "B" 2) (1900 * Scenarios.ms);
                OpPing (mkPingArgs "C" 2) (1900 * Scenarios.ms) ] in
  currentView vs = mkView 2 "A" "B"
  /\ currentView (checkFailuresAndPromote vs (2100 * Scenarios.ms)
                    ["C"; "A"; "B"] ["C"; "A"; "B"]) = mkView 3 "B" "".
Proof.
  cbv zeta. split; [vm_compute; reflexivity|].
  rewrite (promotion_makes_backup_primary
             (final StartServer
                [ OpPing (mkPingArgs "A" 0) 0;
                  OpTick (100 * Scenarios.ms) ["A"] ["A"];
                  OpPing (mkPingArgs "A" 1) (200 * Scenarios.ms);
                  OpPing (mkPingArgs "B" 0) (300 * Scenarios.ms);
                  OpPing (mkPingArgs "C" 0) (300 * Scenarios.ms);
                  OpTick (400 * Scenarios.ms) ["A"; "B"; "C"] ["A"; "B"; "C"];
                  OpPing (mkPingArgs "A" 2) (500 * Scenarios.ms);
                  OpPing (mkPingArgs "B" 2) (1900 * Scenarios.ms);
                  OpPing (mkPingArgs "C" 2) (1900 * Scenarios.ms) ])
             (2100 * Scenarios.ms) ["C"; "A"; "B"] ["C"; "A"; "B"]).
  - vm_compute. reflexivity.
  - vm_compute. discriminate.
  - vm_compute. reflexivity.
  - vm_compute. reflexivity.
  - vm_compute. discriminate.
  - vm_compute. reflexivity.
Defined.

(** ** The RPC counter *)

Lemma int_wrap_small n : - 2 ^ 63 <= n < 2 ^ 63 -> int_wrap n = n.
Proof. intros H. unfold int_wrap. rewrite Z.mod_small; lia. Qed.

Lemma recordPing_rpcCount vs name now :
  rpcCount (recordPing vs name now) = rpcCount vs.
Proof.
  unfold recordPing. destruct (servers vs !! name); simpl; [reflexivity|].
  destruct (negb _ && negb _); reflexivity.
Qed.

Lemma step_rpcCount vs op :
  rpcCount (fst (step vs op)) =
    match op with
    | OpTick _ _ _ => rpcCount vs
    | _ => int_wrap (rpcCount vs + 1)
    end.
Proof.
  destruct op as [args t| |now ordP ordB]; unfold step.
  - unfold Ping. simpl. destruct (_ && _); simpl; apply recordPing_rpcCount.
  - reflexivity.
  - simpl. apply tick_frame.
Qed.

Lemma rpcs_cons op ops : rpcs (op :: ops) = (rpcs [op] + rpcs ops)%nat.
Proof. unfold rpcs. simpl. destruct op; reflexivity. Qed.

(** X11.  GetRPCCount counts the Ping and GetView calls that were
    served, and nothing else: ticks do not count.  (As long as the
    counter, a Go int, does not overflow.) *)
Theorem rpc_count_counts_rpcs ops : forall vs,
  - 2 ^ 63 <= rpcCount vs ->
  rpcCount vs + Z.of_nat (rpcs ops) < 2 ^ 63 ->
  GetRPCCount (final vs ops) = rpcCount vs + Z.of_nat (rpcs ops).
Proof.
  unfold GetRPCCount.
  induction ops as [|op ops IH]; intros vs Hlo Hhi.
  - change (rpcs []) with O. change (final vs []) with vs. lia.
  - rewrite rpcs_cons in *. rewrite final_cons.
    pose proof (step_rpcCount vs op) as Hs.
    destruct op as [args t| |now ordP ordB];
      [change (rpcs [OpPing args t]) with 1%nat in *
      |change (rpcs [OpGetView]) with 1%nat in *
      |change (rpcs [OpTick now ordP ordB]) with 0%nat in *];
      try rewrite int_wrap_small in Hs by lia;
      (rewrite IH; rewrite Hs; lia).
Qed.

Lemma rpc_count_counts_rpcs_witness :
  GetRPCCount (final StartServer Scenarios.skipRun) = 14.
Proof.
  apply (rpc_count_counts_rpcs Scenarios.skipRun StartServer).
  - vm_compute. discriminate.
  - vm_compute. reflexivity.
Defined.

End ViewServiceExtras.

(* ===================================================================== *)
(** * Further properties of the replica                                   *)
(* ===================================================================== *)

Module KVServerExtras.
Import kvserver KVServerProofs.

(** ** Reads and writes at the primary *)

(** X12.  Last writer wins: after two Puts on the same key at a primary
    that is not syncing, Get returns the value of the second one. *)
Theorem last_put_wins kv k v1 v2 net1 net2 :
  role kv = "primary" -> syncing kv = false ->
  let '(kv1, _, _) := Put kv (mkPutArgs k v1) net1 in
  let '(kv2, reply2, _) := Put kv1 (mkPutArgs k v2) net2 in
  PutReply_Err reply2 = OK
  /\ snd (Get kv2 (mkGetArgs k)) = mkGetReply v2 OK.
Proof.
  intros Hr Hs. rewrite (Put_primary_steady kv Hr Hs).
  rewrite (Put_primary_steady (set_data kv _) Hr Hs). simpl.
  split; [reflexivity|]. unfold Get. simpl.
  rewrite (role_test_true _ _ Hr). now rewrite lookup_insert_eq.
Qed.

Lemma last_put_wins_witness :
  let kv := mkKVServer "s1" "vs" true (viewservice.mkView 1 "s1" "")
              ∅ "primary" "" false [] in
  snd (Get (fst (fst (Put (fst (fst (Put kv (mkPutArgs "a" "1") DialError)))
                          (mkPutArgs "a" "100") DialError)))
           (mkGetArgs "a"))
  = mkGetReply "100" OK.
Proof.
  exact (proj2 (last_put_wins
                  (mkKVServer "s1" "vs" true (viewservice.mkView 1 "s1" "")
                     ∅ "primary" "" false [])
                  "a" "1" "100" DialError DialError eq_refl eq_refl)).
Defined.

(** X13.  A Put changes the answer for its own key only: at a primary
    that is not syncing, Get on any other key answers after the Put as
    it did before; in particular a key that was never written still
    gives ErrNoKey.  Get itself never changes the state. *)
Theorem put_leaves_other_keys kv k v net k' :
  role kv = "primary" -> syncing kv = false -> k' <> k ->
  let kv1 := fst (fst (Put kv (mkPutArgs k v) net)) in
  snd (Get kv1 (mkGetArgs k')) = snd (Get kv (mkGetArgs k'))
  /\ fst (Get kv1 (mkGetArgs k')) = kv1
  /\ (data kv !! k' = None ->
      snd (Get kv1 (mkGetArgs k')) = mkGetReply "" ErrNoKey).
Proof.
  intros Hr Hs Hne kv1. subst kv1. rewrite (Put_primary_steady kv Hr Hs).
  unfold Get. simpl. rewrite (role_test_true _ _ Hr).
  rewrite lookup_insert_ne by congruence.
  destruct (data kv !! k') as [w|] eqn:E; simpl; repeat split; congruence.
Qed.

Lemma put_leaves_other_keys_witness :
  let kv := mkKVServer "s1" "vs" true (viewservice.mkView 1 "s1" "")
              {["a" := "1"]} "primary" "" false [] in
  snd (Get (fst (fst (Put kv (mkPutArgs "b" "2") DialError))) (mkGetArgs "nonexistent"))
  = mkGetReply "" ErrNoKey.
Proof.
  exact (proj2 (proj2 (put_leaves_other_keys
                  (mkKVServer "s1" "vs" true (viewservice.mkView 1 "s1" "")
                     {["a" := "1"]} "primary" "" false [])
                  "b" "2" DialError "nonexistent" eq_refl eq_refl
                  ltac:(discriminate))) eq_refl).
Defined.

(** X14.  A replica that is not primary serves nobody: Get and Put
    answer ErrNotPrimary, the state is left exactly as it was (nothing
    is stored, nothing is queued even while syncing is set) and nothing
    is sent to any other replica. *)
Theorem not_primary_refuses kv :
  role kv <> "primary" ->
  (forall args, Get kv args = (kv, mkGetReply "" ErrNotPrimary))
  /\ (forall args net, Put kv args net = (kv, mkPutReply ErrNotPrimary, [])).
Proof.
  intros Hr. split.
  - intros args. unfold Get. now rewrite (role_test_false _ _ Hr).
  - intros args net. unfold Put, Put_enter. now rewrite (role_test_false _ _ Hr).
Qed.

Lemma not_primary_refuses_witness :
  let kv := mkKVServer "s2" "vs" true (viewservice.mkView 2 "s1" "s2")
              {["a" := "1"]} "backup" "" true [] in
  Put kv (mkPutArgs "a" "9") (CallReturned OK) = (kv, mkPutReply ErrNotPrimary, []).
Proof.
  exact (proj2 (not_primary_refuses
                  (mkKVServer "s2" "vs" true (viewservice.mkView 2 "s1" "s2")
                     {["a" := "1"]} "backup" "" true [])
                  ltac:(discriminate))
               (mkPutArgs "a" "9") (CallReturned OK)).
Defined.

(** ** Primary and backup together *)

Lemma deliver_frame b ev :
  me (deliver b ev) = me b /\ role (deliver b ev) = role b.
Proof.
  destruct ev as [addr|addr args|addr args]; simpl; [auto| |].
  - destruct (String.eqb addr (me b)); auto.
  - destruct (String.eqb addr (me b)); [|auto].
    unfold ForwardUpdate. destruct (negb _); auto.
Qed.


(** One forwarded write arriving at the backup. *)
Lemma deliver_forward b args :
  me b <> "" -> role b = "backup" ->
  deliverAll b (Put_forward (me b) args (CallReturned OK))
  = set_data b (<[Key args := Value args]> (data b)).
Proof.
  intros Hm Hr. unfold Put_forward. rewrite (role_test_false _ _ Hm).
  unfold deliverAll. simpl. rewrite String.eqb_refl.
  unfold ForwardUpdate. now rewrite (role_test_true _ _ Hr).
Qed.

Lemma Put_forward_returned backup args err :
  Put_forward backup args (CallReturned err)
  = Put_forward backup args (CallReturned OK).
Proof. reflexivity. Qed.

(** X15.  Replication of a write: when the backup named by the
    primary's view is a replica in the backup role whose store equals
    the primary's, and the forwarded update goes through, the two
    stores are equal again after the Put. *)
Theorem forwarded_put_reaches_backup kv b args err :
  role kv = "primary" -> syncing kv = false ->
  viewservice.Backup (currentView kv) = me b -> me b <> "" ->
  role b = "backup" ->
  data b = data kv ->
  let '(kv', reply, sent) := Put kv args (CallReturned err) in
  PutReply_Err reply = OK
  /\ data (deliverAll b sent) = data kv'
  /\ data kv' !! Key args = Some (Value args).
Proof.
  intros Hr Hs Hb Hm Hrb Hd. rewrite (Put_primary_steady kv Hr Hs).
  rewrite Hb, Put_forward_returned, (deliver_forward b args Hm Hrb). simpl.
  rewrite Hd. split; [reflexivity|]. split; [reflexivity|].
  apply lookup_insert_eq.
Qed.

Lemma forwarded_put_reaches_backup_witness :
  let kv := mkKVServer "s1" "vs" true (viewservice.mkView 2 "s1" "s2")
              {["a" := "1"]} "primary" "s2" false [] in
  let b := mkKVServer "s2" "vs" true (viewservice.mkView 2 "s1" "s2")
              {["a" := "1"]} "backup" "" false [] in
  let '(kv', reply, sent) := Put kv (mkPutArgs "b" "2") (CallReturned OK) in
  PutReply_Err reply = OK
  /\ data (deliverAll b sent) = data kv'
  /\ data kv' !! "b" = Some "2".
Proof.
  exact (forwarded_put_reaches_backup
           (mkKVServer "s1" "vs" true (viewservice.mkView 2 "s1" "s2")
              {["a" := "1"]} "primary" "s2" false [])
           (mkKVServer "s2" "vs" true (viewservice.mkView 2 "s1" "s2")
              {["a" := "1"]} "backup" "" false [])
           (mkPutArgs "b" "2") OK eq_refl eq_refl eq_refl
           ltac:(discriminate) eq_refl eq_refl).
Defined.

(** ** State transfer, seen from both ends *)

(** The writes of a replayed queue, as sent and as stored. *)
Lemma replay_steady pending : forall kv fwd,
  role kv = "primary" -> syncing kv = false ->
  viewservice.Backup (currentView kv) <> "" ->
  allReturned fwd ->
  replay kv pending fwd =
    (set_data kv (applyAll (data kv) pending),
     forwardedWrites (viewservice.Backup (currentView kv)) pending).
Proof.
  induction pending as [|a rest IH]; intros kv fwd Hr Hs Hb Hf.
  - destruct kv; reflexivity.
  - cbn [replay]. rewrite (Put_primary_steady kv Hr Hs).
    assert (Hf' : allReturned (fun i => fwd (S i))) by (intros i; apply Hf).
    rewrite (IH (set_data kv (<[Key a := Value a]> (data kv)))
                (fun i => fwd (S i)) Hr Hs Hb Hf').
    simpl. destruct (Hf O) as [err ->].
    unfold Put_forward. rewrite (role_test_false _ _ Hb). reflexivity.
Qed.


(** A transfer that succeeds, spelled out. *)
Lemma transferState_returned kv backup viewNumber err fwd :
  role kv = "primary" ->
  viewservice.Backup (currentView kv) <> "" ->
  allReturned fwd ->
  transferState kv backup viewNumber (CallReturned err) fwd =
    (set_data (set_pendingQueue (set_syncing kv false) [])
       (applyAll (data kv) (pendingQueue kv)),
     [EvDial backup; EvSyncState backup (mkSyncStateArgs (data kv) viewNumber)]
     ++ forwardedWrites (viewservice.Backup (currentView kv)) (pendingQueue kv)).
Proof.
  intros Hr Hb Hf. unfold transferState, transferState_begin, transferState_send.
  rewrite copyMap_id.
  destruct (transferState_done_queue (set_syncing kv true)) as (_ & Hq & Hkv).
  destruct (transferState_done (set_syncing kv true)) as [kv1 pending].
  simpl in Hq, Hkv. subst kv1 pending.
  rewrite (replay_steady (pendingQueue kv)
             (set_pendingQueue (set_syncing (set_syncing kv true) false) [])
             fwd Hr eq_refl Hb Hf).
  reflexivity.
Qed.

(** X16.  The fence of the state transfer: when the transfer succeeds at
    a primary whose view names a backup and every forwarded update goes
    through, what the primary sends is, in this order, the snapshot of
    its store as it was when the transfer began and then the queued
    writes, first in first out; the primary ends with an empty queue,
    syncing cleared and the queued writes applied. *)
Theorem transfer_sends_snapshot_then_queue kv backup viewNumber err fwd :
  role kv = "primary" ->
  viewservice.Backup (currentView kv) <> "" ->
  allReturned fwd ->
  let '(kv', sent) := transferState kv backup viewNumber (CallReturned err) fwd in
  sent =
    [EvDial backup; EvSyncState backup (mkSyncStateArgs (data kv) viewNumber)]
    ++ forwardedWrites (viewservice.Backup (currentView kv)) (pendingQueue kv)
  /\ data kv' = applyAll (data kv) (pendingQueue kv)
  /\ pendingQueue kv' = []
  /\ syncing kv' = false.
Proof.
  intros Hr Hb Hf.
  rewrite (transferState_returned kv backup viewNumber err fwd Hr Hb Hf).
  simpl. repeat split.
Qed.

Lemma transfer_sends_snapshot_then_queue_witness :
  snd (transferState
         (mkKVServer "s1" "vs" true (viewservice.mkView 2 "s1" "s2")
            {["a" := "1"]} "primary" "s2" false
            [mkPutArgs "b" "2"; mkPutArgs "a" "3"])
         "s2" 2 (CallReturned OK) (fun _ => CallReturned OK))
  = [ EvDial "s2"; EvSyncState "s2" (mkSyncStateArgs {["a" := "1"]} 2);
      EvDial "s2"; EvForwardUpdate "s2" (mkForwardUpdateArgs "b" "2");
      EvDial "s2"; EvForwardUpdate "s2" (mkForwardUpdateArgs "a" "3") ].
Proof.
  pose proof (transfer_sends_snapshot_then_queue
                (mkKVServer "s1" "vs" true (viewservice.mkView 2 "s1" "s2")
                   {["a" := "1"]} "primary" "s2" false
                   [mkPutArgs "b" "2"; mkPutArgs "a" "3"])
                "s2" 2 OK (fun _ => CallReturned OK)
                eq_refl ltac:(simpl; discriminate)
                (fun i => ex_intro _ OK eq_refl)) as H.
  destruct (transferState _ _ _ _ _) as [kv' sent].
  destruct H as [-> _]. reflexivity.
Defined.




(** ** Learning a view *)

Lemma handleViewChange_frame kv oldView :
  let kv' := fst (handleViewChange kv oldView) in
  currentView kv' = currentView kv /\ data kv' = data kv
  /\ pendingQueue kv' = pendingQueue kv /\ syncing kv' = syncing kv
  /\ me kv' = me kv /\ vsClient kv' = vsClient kv
  /\ role kv' = roleFor (me kv) (currentView kv).
Proof.
  unfold handleViewChange, roleFor. cbv zeta.
  destruct (String.eqb (viewservice.Primary (currentView kv)) (me kv)); simpl.
  - destruct (negb _ && negb _); simpl; [auto 10|].
    destruct (String.eqb _ ""); simpl; auto 10.
  - destruct (String.eqb (viewservice.Backup (currentView kv)) (me kv)); simpl;
      auto 10.
Qed.

Lemma handleViewChange_started kv oldView target :
  snd (handleViewChange kv oldView) = Some target ->
  viewservice.Primary (currentView kv) = me kv
  /\ target = (viewservice.Backup (currentView kv),
               viewservice.ViewNumber (currentView kv))
  /\ viewservice.Backup (currentView kv) <> ""
  /\ viewservice.Backup (currentView kv) <> lastBackup kv
  /\ lastBackup (fst (handleViewChange kv oldView))
     = viewservice.Backup (currentView kv).
Proof.
  unfold handleViewChange. cbv zeta.
  destruct (String.eqb (viewservice.Primary (currentView kv)) (me kv)) eqn:Ep; simpl.
  - apply String.eqb_eq in Ep.
    destruct (String.eqb (viewservice.Backup (currentView kv)) "") eqn:Eb; simpl.
    + intros H. discriminate.
    + destruct (String.eqb (viewservice.Backup (currentView kv)) (lastBackup kv))
        eqn:El; simpl; [discriminate|].
      apply String.eqb_neq in Eb, El. intros [= <-]. auto.
  - destruct (String.eqb (viewservice.Backup (currentView kv)) (me kv)); simpl;
      discriminate.
Qed.

(** X18.  Installing a view never touches the store, the pending queue
    or the syncing flag.  When the number differs from the one the
    replica knew, its role becomes what the new view says (primary
    before backup before idle); when the number is the same, role and
    lastBackup stay and no transfer starts.  A transfer is started only
    by a replica the new view names primary, towards the backup of that
    view, which is then recorded in lastBackup. *)
Theorem ping_reply_installs_view kv reply :
  let '(kv', started) := ping_reply kv reply in
  currentView kv' = reply /\ data kv' = data kv
  /\ pendingQueue kv' = pendingQueue kv /\ syncing kv' = syncing kv
  /\ (viewservice.ViewNumber reply <> viewservice.ViewNumber (currentView kv) ->
      role kv' = roleFor (me kv) reply)
  /\ (viewservice.ViewNumber reply = viewservice.ViewNumber (currentView kv) ->
      role kv' = role kv /\ lastBackup kv' = lastBackup kv /\ started = None)
  /\ (forall target, started = Some target ->
      role kv' = "primary"
      /\ viewservice.Primary reply = me kv
      /\ target = (viewservice.Backup reply, viewservice.ViewNumber reply)
      /\ viewservice.Backup reply <> ""
      /\ lastBackup kv' = viewservice.Backup reply).
Proof.
  unfold ping_reply. cbv zeta.
  change (currentView (set_currentView kv reply)) with reply.
  destruct (Z.eqb_spec (viewservice.ViewNumber (currentView kv))
                       (viewservice.ViewNumber reply)) as [E|E]; simpl.
  - repeat split; intros; try congruence; try discriminate.
  - pose proof (handleViewChange_frame (set_currentView kv reply) (currentView kv))
      as (F1 & F2 & F3 & F4 & F5 & _ & F6).
    pose proof (handleViewChange_started (set_currentView kv reply) (currentView kv))
      as Hst.
    destruct (handleViewChange (set_currentView kv reply) (currentView kv))
      as [kv' started]. simpl in *.
    repeat split; try assumption; try congruence.
    + destruct (Hst target H) as (Hp & _). rewrite F6. unfold roleFor.
      now rewrite Hp, String.eqb_refl.
    + now destruct (Hst target H).
    + now destruct (Hst target H) as (_ & ? & _).
    + now destruct (Hst target H) as (_ & _ & ? & _).
    + now destruct (Hst target H) as (_ & _ & _ & _ & ?).
Qed.

Lemma ping_reply_installs_view_witness :
  let kv := mkKVServer "s1" "vs" true (viewservice.mkView 1 "s1" "")
              {["a" := "1"]} "primary" "" false [] in
  role (fst (ping_reply kv (viewservice.mkView 2 "s2" "s1"))) = "backup".
Proof.
  cbv zeta.
  pose proof (ping_reply_installs_view
                (mkKVServer "s1" "vs" true (viewservice.mkView 1 "s1" "")
                   {["a" := "1"]} "primary" "" false [])
                (viewservice.mkView 2 "s2" "s1")) as H.
  destruct (ping_reply _ _) as [kv' started].
  destruct H as (_ & _ & _ & _ & H & _).
  simpl. rewrite H; [reflexivity|]. simpl. discriminate.
Defined.



(** ** The replica and the view service *)

(** X20.  Acknowledgement end to end: a replica that is connected to
    the view service, has installed the service's current view and is
    named primary by it sends, as its next ping, one that sets
    primaryAcked at the service. *)
Theorem primary_ping_acknowledges vs kv now :
  vsClient kv = true ->
  me kv = viewservice.Primary (viewservice.currentView vs) ->
  let kv' := fst (ping_reply kv (viewservice.currentView vs)) in
  exists args,
    ping_args kv' = Some args
    /\ args = viewservice.mkPingArgs (me kv)
                (viewservice.ViewNumber (viewservice.currentView vs))
    /\ viewservice.primaryAcked (fst (viewservice.Ping vs args now)) = true
    /\ snd (viewservice.Ping vs args now) = viewservice.currentView vs.
Proof.
  intros Hc Hm kv'.
  assert (H : vsClient kv' = true /\ me kv' = me kv
              /\ currentView kv' = viewservice.currentView vs).
  { subst kv'. unfold ping_reply. cbv zeta.
    destruct (negb _); simpl; [|auto].
    pose proof (handleViewChange_frame
                  (set_currentView kv (viewservice.currentView vs)) (currentView kv))
      as (F1 & _ & _ & _ & F5 & F6 & _).
    simpl in *. rewrite F6, F5, F1. auto. }
  destruct H as (Hc' & Hm' & Hv').
  exists (viewservice.mkPingArgs (me kv)
            (viewservice.ViewNumber (viewservice.currentView vs))).
  split; [|split; [reflexivity|split]].
  - unfold ping_args. now rewrite Hc', Hm', Hv'.
  - rewrite ViewServiceProofs.Ping_acked. unfold viewservice.isAck. simpl.
    now rewrite Hm, String.eqb_refl, Z.eqb_refl.
  - apply ViewServiceProofs.Ping_view.
Qed.

Lemma primary_ping_acknowledges_witness :
  let vs := viewservice.final viewservice.StartServer
              [ viewservice.OpPing (viewservice.mkPingArgs "A" 0) 0;
                viewservice.OpTick (100 * Scenarios.ms) ["A"] ["A"] ] in
  let kv := mkKVServer "A" "vs" true (viewservice.mkView 0 "" "") ∅ "idle" "" false [] in
  viewservice.primaryAcked vs = false
  /\ exists args,
       ping_args (fst (ping_reply kv (viewservice.currentView vs))) = Some args
       /\ viewservice.primaryAcked (fst (viewservice.Ping vs args (200 * Scenarios.ms)))
          = true.
Proof.
  cbv zeta. split; [vm_compute; reflexivity|].
  destruct (primary_ping_acknowledges
              (viewservice.final viewservice.StartServer
                 [ viewservice.OpPing (viewservice.mkPingArgs "A" 0) 0;
                   viewservice.OpTick (100 * Scenarios.ms) ["A"] ["A"] ])
              (mkKVServer "A" "vs" true (viewservice.mkView 0 "" "") ∅ "idle" "" false [])
              (200 * Scenarios.ms) eq_refl)
    as (args & H1 & _ & H3 & _).
  - vm_compute. reflexivity.
  - exists args. split; assumption.
Defined.

(** ** From start to service *)

(** X27.  A replica starts idle with an empty store and serves nobody;
    once it learns a view, other than view 0, that names it primary
    with no backup, it is primary, starts no transfer, and serves:
    Put(k, x) is answered OK without anything being sent, and Get(k)
    returns x. *)
Theorem fresh_replica_becomes_primary serverName vsAddress v k x net :
  viewservice.Primary v = serverName ->
  viewservice.Backup v = "" ->
  viewservice.ViewNumber v <> 0 ->
  let kv0 := StartServer serverName vsAddress in
  let '(kv1, started) := ping_reply kv0 v in
  let '(kv2, putReply, sent) := Put kv1 (mkPutArgs k x) net in
  snd (Get kv0 (mkGetArgs k)) = mkGetReply "" ErrNotPrimary
  /\ fst (Put kv0 (mkPutArgs k x) net) = (kv0, mkPutReply ErrNotPrimary)
  /\ role kv1 = "primary" /\ started = None
  /\ PutReply_Err putReply = OK /\ sent = []
  /\ snd (Get kv2 (mkGetArgs k)) = mkGetReply x OK.
Proof.
  intros Hp Hb Hn kv0.
  assert (E : ping_reply kv0 v
              = (set_lastBackup (set_role (set_currentView kv0 v) "primary") "",
                 None)).
  { unfold ping_reply. cbv zeta.
    change (currentView (set_currentView kv0 v)) with v.
    change (viewservice.ViewNumber (currentView kv0)) with 0.
    destruct (Z.eqb_spec 0 (viewservice.ViewNumber v)) as [E|E]; [congruence|].
    simpl. unfold handleViewChange. cbv zeta. simpl.
    rewrite Hp, String.eqb_refl, Hb. reflexivity. }
  rewrite E.
  rewrite (Put_primary_steady
             (set_lastBackup (set_role (set_currentView kv0 v) "primary") "")
             eq_refl eq_refl).
  simpl. rewrite Hb.
  repeat split. unfold Get. simpl. now rewrite lookup_insert_eq.
Qed.

Lemma fresh_replica_becomes_primary_witness :
  let kv0 := StartServer "localhost:8001" "localhost:8000" in
  let '(kv1, started) := ping_reply kv0 (viewservice.mkView 1 "localhost:8001" "") in
  let '(kv2, putReply, sent) := Put kv1 (mkPutArgs "a" "1") DialError in
  snd (Get kv0 (mkGetArgs "a")) = mkGetReply "" ErrNotPrimary
  /\ fst (Put kv0 (mkPutArgs "a" "1") DialError) = (kv0, mkPutReply ErrNotPrimary)
  /\ role kv1 = "primary" /\ started = None
  /\ PutReply_Err putReply = OK /\ sent = []
  /\ snd (Get kv2 (mkGetArgs "a")) = mkGetReply "1" OK.
Proof.
  exact (fresh_replica_becomes_primary "localhost:8001" "localhost:8000"
           (viewservice.mkView 1 "localhost:8001" "") "a" "1" DialError
           eq_refl eq_refl ltac:(simpl; discriminate)).
Defined.

End KVServerExtras.

(* ===================================================================== *)
(** * Properties of the client                                            *)
(* ===================================================================== *)

Module ClientProofs.
Import client.

Lemma call_answer {Reply} ck (answer : option Reply) reply :
  call ck answer = Some reply -> answer = Some reply.
Proof.
  unfold call. destruct (primaryClient ck) as [c|]; [|discriminate].
  destruct (connClosed c); [discriminate|auto].
Qed.

Lemma call_connected {Reply} ck (answer : option Reply) :
  connected ck -> currentPrimary ck <> "" -> call ck answer = answer.
Proof. intros Hc Hp. unfold call. now rewrite (Hc Hp). Qed.

Lemma updatePrimary_connected ck getView dialOk :
  connected ck -> connected (updatePrimary ck getView dialOk).
Proof.
  intros Hc. unfold updatePrimary. destruct getView as [v|]; [|exact Hc].
  destruct (negb _ && negb _); [|exact Hc].
  destruct dialOk; unfold connected; simpl; congruence.
Qed.

Lemma refresh_connected {Reply} ck (r : Round Reply) :
  connected ck -> connected (refresh ck r).
Proof.
  intros Hc. unfold refresh. destruct (String.eqb _ ""); [|exact Hc].
  now apply updatePrimary_connected.
Qed.

Lemma forgetPrimary_connected ck : connected (forgetPrimary ck).
Proof. unfold connected, forgetPrimary. simpl. congruence. Qed.

(** X21.  The cached primary and the connection go together: through
    any number of turns of Get and Put, whenever the client holds a
    primary address it holds an open connection to that very address,
    so every call goes to the replica the client believes to be
    primary; and when Get or Put returns, that is the state the client
    is in. *)
Theorem client_stays_connected :
  (forall env ck key,
     connected ck ->
     let '(result, ck') := Get ck key env in
     connected ck'
     /\ (result <> None ->
         currentPrimary ck' <> ""
         /\ primaryClient ck' = Some (mkConn (currentPrimary ck') false)))
  /\ (forall env ck key value,
     connected ck ->
     let '(done, ck') := Put ck key value env in
     connected ck'
     /\ (done = true ->
         currentPrimary ck' <> ""
         /\ primaryClient ck' = Some (mkConn (currentPrimary ck') false))).
Proof.
  split.
  - induction env as [|r env IH]; intros ck key Hc.
    + simpl. split; [exact Hc|congruence].
    + cbn [Get]. pose proof (refresh_connected ck r Hc) as Hc1.
      set (ck1 := refresh ck r) in *.
      destruct (String.eqb (currentPrimary ck1) "") eqn:Ep; [now apply IH|].
      apply String.eqb_neq in Ep.
      destruct (call ck1 (rCall r)) as [reply|];
        [|apply IH, forgetPrimary_connected].
      destruct (String.eqb (kvserver.GetReply_Err reply) kvserver.OK);
        [split; [exact Hc1|intros _; split; [exact Ep|exact (Hc1 Ep)]]|].
      destruct (String.eqb (kvserver.GetReply_Err reply) kvserver.ErrNoKey);
        [split; [exact Hc1|intros _; split; [exact Ep|exact (Hc1 Ep)]]|].
      destruct (String.eqb (kvserver.GetReply_Err reply) kvserver.ErrNotPrimary);
        [apply IH, forgetPrimary_connected|now apply IH].
  - induction env as [|r env IH]; intros ck key value Hc.
    + simpl. split; [exact Hc|congruence].
    + cbn [Put]. pose proof (refresh_connected ck r Hc) as Hc1.
      set (ck1 := refresh ck r) in *.
      destruct (String.eqb (currentPrimary ck1) "") eqn:Ep; [now apply IH|].
      apply String.eqb_neq in Ep.
      destruct (call ck1 (rCall r)) as [reply|];
        [|apply IH, forgetPrimary_connected].
      destruct (String.eqb (kvserver.PutReply_Err reply) kvserver.OK);
        [split; [exact Hc1|intros _; split; [exact Ep|exact (Hc1 Ep)]]|].
      destruct (String.eqb (kvserver.PutReply_Err reply) kvserver.ErrNotPrimary);
        [apply IH, forgetPrimary_connected|now apply IH].
Qed.

Lemma client_stays_connected_witness :
  let '(result, ck') :=
    Get (MakeClient "vs") "a"
        [ mkRound None true None;
          mkRound (Some (viewservice.mkView 1 "s1" "")) false None;
          mkRound (Some (viewservice.mkView 1 "s1" "")) true
                  (Some (kvserver.mkGetReply "" kvserver.ErrNotPrimary));
          mkRound (Some (viewservice.mkView 2 "s2" "")) true
                  (Some (kvserver.mkGetReply "1" kvserver.OK)) ] in
  connected ck'
  /\ (result <> None ->
      currentPrimary ck' <> ""
      /\ primaryClient ck' = Some (mkConn (currentPrimary ck') false)).
Proof.
  apply (proj1 client_stays_connected).
  unfold connected. simpl. congruence.
Defined.

(** X22.  Get returns only what a replica answered: if Get returns [x],
    then in one of the turns the call went through and the reply was OK
    with value [x], or the reply was ErrNoKey and [x] is the empty
    string.  A reply with ErrNotPrimary or a failed call is never
    turned into a result. *)
Theorem client_get_sound env : forall ck key x,
  fst (Get ck key env) = Some x ->
  exists r reply,
    r ∈ env /\ rCall r = Some reply
    /\ ((kvserver.GetReply_Err reply = kvserver.OK
         /\ x = kvserver.GetReply_Value reply)
        \/ (kvserver.GetReply_Err reply = kvserver.ErrNoKey /\ x = "")).
Proof.
  induction env as [|r env IH]; intros ck key x H; [discriminate|].
  assert (Hrest : forall ck0, fst (Get ck0 key env) = Some x ->
            exists r0 reply,
              r0 ∈ r :: env /\ rCall r0 = Some reply
              /\ ((kvserver.GetReply_Err reply = kvserver.OK
                   /\ x = kvserver.GetReply_Value reply)
                  \/ (kvserver.GetReply_Err reply = kvserver.ErrNoKey /\ x = ""))).
  { intros ck0 H0. destruct (IH ck0 key x H0) as (r0 & reply & Hin & Hr).
    exists r0, reply. split; [|exact Hr]. apply elem_of_cons. now right. }
  cbn [Get] in H. set (ck1 := refresh ck r) in *.
  destruct (String.eqb (currentPrimary ck1) ""); [eauto|].
  destruct (call ck1 (rCall r)) as [reply|] eqn:Ec; [|eauto].
  apply call_answer in Ec.
  destruct (String.eqb (kvserver.GetReply_Err reply) kvserver.OK) eqn:E1.
  - apply String.eqb_eq in E1. simpl in H. injection H as <-.
    exists r, reply. split; [apply elem_of_cons; now left|]. auto.
  - destruct (String.eqb (kvserver.GetReply_Err reply) kvserver.ErrNoKey) eqn:E2.
    + apply String.eqb_eq in E2. simpl in H. injection H as <-.
      exists r, reply. split; [apply elem_of_cons; now left|]. auto.
    + destruct (String.eqb (kvserver.GetReply_Err reply) kvserver.ErrNotPrimary);
        eauto.
Qed.

Lemma client_get_sound_witness :
  exists r reply,
    r ∈ [ mkRound (Some (viewservice.mkView 1 "s1" "")) true
                  (Some (kvserver.mkGetReply "" kvserver.ErrNotPrimary));
          mkRound (Some (viewservice.mkView 2 "s2" "")) true
                  (Some (kvserver.mkGetReply "1" kvserver.OK)) ]
    /\ rCall r = Some reply
    /\ ((kvserver.GetReply_Err reply = kvserver.OK
         /\ "1" = kvserver.GetReply_Value reply)
        \/ (kvserver.GetReply_Err reply = kvserver.ErrNoKey /\ "1" = "")).
Proof.
  apply (client_get_sound
           [ mkRound (Some (viewservice.mkView 1 "s1" "")) true
                     (Some (kvserver.mkGetReply "" kvserver.ErrNotPrimary));
             mkRound (Some (viewservice.mkView 2 "s2" "")) true
                     (Some (kvserver.mkGetReply "1" kvserver.OK)) ]
           (MakeClient "vs") "a" "1").
  reflexivity.
Defined.

(** ** The client and a replica *)

Lemma refresh_fresh {Reply} ck v (answer : option Reply) :
  currentPrimary ck = "" -> viewservice.Primary v <> "" ->
  refresh ck (mkRound (Some v) true answer)
  = mkClient (vsAddress ck) (viewservice.Primary v)
             (Some (mkConn (viewservice.Primary v) false)).
Proof.
  intros Hc Hp. unfold refresh, updatePrimary. simpl. rewrite Hc. simpl.
  apply String.eqb_neq in Hp. now rewrite Hp.
Qed.

(** X23.  A Get through the client reads the store of the primary: when
    the view service names a primary that can be dialled and that
    replica is in the primary role, Get returns in that very turn, with
    the stored value if the key is present and with the empty string if
    it is not; a key that was never written and a key that holds the
    empty string look the same to the caller. *)
Theorem client_get_reads_primary ck key v kv env :
  currentPrimary ck = "" ->
  viewservice.Primary v <> "" ->
  kvserver.role kv = "primary" ->
  Get ck key
      (mkRound (Some v) true (Some (snd (kvserver.Get kv (kvserver.mkGetArgs key))))
       :: env)
  = (Some (default "" (kvserver.data kv !! key)),
     mkClient (vsAddress ck) (viewservice.Primary v)
              (Some (mkConn (viewservice.Primary v) false))).
Proof.
  intros Hc Hp Hr. cbn [Get]. rewrite (refresh_fresh ck v _ Hc Hp). simpl.
  apply String.eqb_neq in Hp. rewrite Hp.
  unfold kvserver.Get. rewrite (KVServerProofs.role_test_true _ _ Hr). simpl.
  destruct (kvserver.data kv !! key); reflexivity.
Qed.

Lemma client_get_reads_primary_witness :
  let kv := kvserver.mkKVServer "s1" "vs" true (viewservice.mkView 1 "s1" "")
              {["a" := "1"]} "primary" "" false [] in
  fst (Get (MakeClient "vs") "nonexistent"
           [mkRound (Some (viewservice.mkView 1 "s1" "")) true
                    (Some (snd (kvserver.Get kv (kvserver.mkGetArgs "nonexistent"))))])
  = Some "".
Proof.
  cbv zeta.
  rewrite (client_get_reads_primary (MakeClient "vs") "nonexistent"
             (viewservice.mkView 1 "s1" "")
             (kvserver.mkKVServer "s1" "vs" true (viewservice.mkView 1 "s1" "")
                {["a" := "1"]} "primary" "" false []) []).
  - reflexivity.
  - reflexivity.
  - simpl. discriminate.
  - reflexivity.
Defined.

(** X24.  A stale primary costs one turn: when the client holds a
    primary address and the replica behind it is no longer in the
    primary role, or the call fails, Get and Put drop the address and
    the connection and go on as a client that has just been made; the
    request is not lost and nothing is returned in that turn. *)
Theorem client_retries_after_stale_primary ck kv :
  connected ck -> currentPrimary ck <> "" ->
  kvserver.role kv <> "primary" ->
  (forall key gv dial env,
     Get ck key
         (mkRound gv dial (Some (snd (kvserver.Get kv (kvserver.mkGetArgs key))))
          :: env)
     = Get (MakeClient (vsAddress ck)) key env
     /\ Get ck key (mkRound gv dial None :: env)
        = Get (MakeClient (vsAddress ck)) key env)
  /\ (forall key value gv dial net env,
     Put ck key value
         (mkRound gv dial
            (Some (snd (fst (kvserver.Put kv (kvserver.mkPutArgs key value) net))))
          :: env)
     = Put (MakeClient (vsAddress ck)) key value env
     /\ Put ck key value (mkRound gv dial None :: env)
        = Put (MakeClient (vsAddress ck)) key value env).
Proof.
  intros Hc Hp Hr.
  assert (Hrefresh : forall Reply (r : Round Reply), refresh ck r = ck).
  { intros Reply r. unfold refresh. apply String.eqb_neq in Hp. now rewrite Hp. }
  assert (HG : forall args,
            kvserver.Get kv args
            = (kv, kvserver.mkGetReply "" kvserver.ErrNotPrimary)).
  { intros args. unfold kvserver.Get.
    now rewrite (KVServerProofs.role_test_false _ _ Hr). }
  assert (HP : forall args net,
            kvserver.Put kv args net
            = (kv, kvserver.mkPutReply kvserver.ErrNotPrimary, [])).
  { intros args net. unfold kvserver.Put, kvserver.Put_enter.
    now rewrite (KVServerProofs.role_test_false _ _ Hr). }
  split.
  - intros key gv dial env. split; cbn [Get]; rewrite Hrefresh;
      rewrite (proj2 (String.eqb_neq _ _) Hp);
      rewrite (call_connected ck _ Hc Hp); simpl; [|reflexivity].
    rewrite HG. reflexivity.
  - intros key value gv dial net env. split; cbn [Put]; rewrite Hrefresh;
      rewrite (proj2 (String.eqb_neq _ _) Hp);
      rewrite (call_connected ck _ Hc Hp); simpl; [|reflexivity].
    rewrite HP. reflexivity.
Qed.

Lemma client_retries_after_stale_primary_witness :
  let ck := mkClient "vs" "s1" (Some (mkConn "s1" false)) in
  let kv := kvserver.mkKVServer "s1" "vs" true (viewservice.mkView 3 "s2" "s1")
              {["a" := "1"]} "backup" "" false [] in
  Get ck "a"
      [ mkRound None false (Some (snd (kvserver.Get kv (kvserver.mkGetArgs "a"))));
        mkRound (Some (viewservice.mkView 3 "s2" "s1")) true
                (Some (kvserver.mkGetReply "1" kvserver.OK)) ]
  = Get (MakeClient "vs") "a"
        [ mkRound (Some (viewservice.mkView 3 "s2" "s1")) true
                  (Some (kvserver.mkGetReply "1" kvserver.OK)) ].
Proof.
  apply (proj1 (client_retries_after_stale_primary
                  (mkClient "vs" "s1" (Some (mkConn "s1" false)))
                  (kvserver.mkKVServer "s1" "vs" true (viewservice.mkView 3 "s2" "s1")
                     {["a" := "1"]} "backup" "" false [])
                  ltac:(intros _; reflexivity) ltac:(simpl; discriminate)
                  ltac:(simpl; discriminate))
               "a" None false
               [ mkRound (Some (viewservice.mkView 3 "s2" "s1")) true
                         (Some (kvserver.mkGetReply "1" kvserver.OK)) ]).
Defined.

(** X25.  Put returns only after a replica has answered OK: if Put
    returns, then in one of the turns the call went through and the
    reply carried no error. *)
Theorem client_put_sound env : forall ck key value,
  fst (Put ck key value env) = true ->
  exists r reply,
    r ∈ env /\ rCall r = Some reply
    /\ kvserver.PutReply_Err reply = kvserver.OK.
Proof.
  induction env as [|r env IH]; intros ck key value H; [discriminate|].
  assert (Hrest : forall ck0, fst (Put ck0 key value env) = true ->
            exists r0 reply,
              r0 ∈ r :: env /\ rCall r0 = Some reply
              /\ kvserver.PutReply_Err reply = kvserver.OK).
  { intros ck0 H0. destruct (IH ck0 key value H0) as (r0 & reply & Hin & Hr).
    exists r0, reply. split; [|exact Hr]. apply elem_of_cons. now right. }
  cbn [Put] in H. set (ck1 := refresh ck r) in *.
  destruct (String.eqb (currentPrimary ck1) ""); [eauto|].
  destruct (call ck1 (rCall r)) as [reply|] eqn:Ec; [|eauto].
  apply call_answer in Ec.
  destruct (String.eqb (kvserver.PutReply_Err reply) kvserver.OK) eqn:E1.
  - apply String.eqb_eq in E1.
    exists r, reply. split; [apply elem_of_cons; now left|]. auto.
  - destruct (String.eqb (kvserver.PutReply_Err reply) kvserver.ErrNotPrimary);
      eauto.
Qed.

Lemma client_put_sound_witness :
  exists r reply,
    r ∈ [ mkRound (Some (viewservice.mkView 1 "s1" "")) true None;
          mkRound (Some (viewservice.mkView 1 "s1" "")) true
                  (Some (kvserver.mkPutReply kvserver.OK)) ]
    /\ rCall r = Some reply
    /\ kvserver.PutReply_Err reply = kvserver.OK.
Proof.
  apply (client_put_sound
           [ mkRound (Some (viewservice.mkView 1 "s1" "")) true None;
             mkRound (Some (viewservice.mkView 1 "s1" "")) true
                     (Some (kvserver.mkPutReply kvserver.OK)) ]
           (MakeClient "vs") "a" "1").
  reflexivity.
Defined.

(** X26.  Round trip through the client: against a primary that is not
    syncing, Put(k, x) returns in its first turn, the client keeps the
    primary it has found, and the following Get(k) returns x from that
    primary without asking the view service again. *)
Theorem client_put_then_get ck v kv k x net gv dial :
  currentPrimary ck = "" ->
  viewservice.Primary v <> "" ->
  kvserver.role kv = "primary" -> kvserver.syncing kv = false ->
  let '(kv1, putReply, _) := kvserver.Put kv (kvserver.mkPutArgs k x) net in
  let '(done, ck1) := Put ck k x [mkRound (Some v) true (Some putReply)] in
  done = true
  /\ currentPrimary ck1 = viewservice.Primary v
  /\ Get ck1 k
         [mkRound gv dial (Some (snd (kvserver.Get kv1 (kvserver.mkGetArgs k))))]
     = (Some x, ck1).
Proof.
  intros Hc Hp Hr Hs.
  rewrite (KVServerProofs.Put_primary_steady kv Hr Hs).
  cbn [Put]. rewrite (refresh_fresh ck v _ Hc Hp). simpl.
  pose proof Hp as Hp'. apply String.eqb_neq in Hp'. rewrite Hp'. simpl.
  split; [reflexivity|]. split; [reflexivity|].
  unfold refresh. simpl. rewrite Hp'. simpl.
  unfold kvserver.Get. simpl. rewrite (KVServerProofs.role_test_true _ _ Hr).
  rewrite lookup_insert_eq. simpl. rewrite Hp'. reflexivity.
Qed.

Lemma client_put_then_get_witness :
  let kv := kvserver.mkKVServer "s1" "vs" true (viewservice.mkView 1 "s1" "")
              ∅ "primary" "" false [] in
  let '(kv1, putReply, _) :=
    kvserver.Put kv (kvserver.mkPutArgs "a" "1") kvserver.DialError in
  let '(done, ck1) :=
    Put (MakeClient "vs") "a" "1"
        [mkRound (Some (viewservice.mkView 1 "s1" "")) true (Some putReply)] in
  done = true
  /\ currentPrimary ck1 = "s1"
  /\ Get ck1 "a"
         [mkRound None false (Some (snd (kvserver.Get kv1 (kvserver.mkGetArgs "a"))))]
     = (Some "1", ck1).
Proof.
  exact (client_put_then_get (MakeClient "vs") (viewservice.mkView 1 "s1" "")
           (kvserver.mkKVServer "s1" "vs" true (viewservice.mkView 1 "s1" "")
              ∅ "primary" "" false [])
           "a" "1" kvserver.DialError None false
           eq_refl ltac:(simpl; discriminate) eq_refl eq_refl).
Defined.

End ClientProofs.
